(** * A to-do list web API: the request handlers of [index.py]

    The development embeds the Flask view functions of [index.py], the
    pydantic request models they validate against, and the relational
    store they talk to through a SQLModel session, and proves the
    properties of the endpoints.

    A view function is a function of the decoded request body (the
    value of [request.json]), of the store, and of an oracle that tells
    which statements sent to the store fail for reasons outside the
    program.  The routes run the hook that sets up the tables, decode
    the body, and call the view function; a body that does not decode is
    answered by the framework.

    The store is PostgreSQL behind its driver: a text with a NUL
    character is not sent, VARCHAR(50) cuts off spaces beyond its length
    and refuses anything else, the primary key is an INTEGER drawn from
    a sequence, and a number drawn is not given back when the
    transaction fails. *)

From Stdlib Require Import ZArith PrimFloat Ascii String.
From stdpp Require Import gmap strings list fin_maps.

#[local] Set Warnings "-register-all".
#[local] Open Scope Z_scope.

(** ** Python values *)

(** The value of [request.json]: what Python's JSON decoder builds.  A
    character of a [string] stands for one character of a Python [str]. *)
Inductive json : Type :=
  | JNull
  | JBool (b : bool)
  | JInt (n : Z)
  | JFloat (f : float)
  | JStr (s : string)
  | JArr (l : list json)
  | JObj (m : gmap string json).

(** [datetime.date] *)
Record date : Type := mkDate { year : Z; month : Z; day : Z }.

(** The exceptions the handlers can meet. *)
Inductive exn : Type :=
  | TypeError            (* keyword unpacking of a value that is not a mapping *)
  | ValidationError      (* pydantic: the data do not fit the model *)
  | IntegrityError       (* store: NOT NULL or primary key violated *)
  | DataError            (* store: value too long for its column, sequence at its end *)
  | OperationalError     (* store: the statement could not be executed *)
  | StaleDataError       (* session: the row of a loaded object is gone *)
  | BackendError         (* the generative-language client failed *)
  | ValueError.          (* driver: a text to send holds a NUL character *)

Inductive result (A : Type) : Type :=
  | Ok (a : A)
  | Raise (e : exn).
Arguments Ok {A} a.
Arguments Raise {A} e.

#[export] Instance result_ret : MRet result := λ A a, Ok a.
#[export] Instance result_bind : MBind result := λ A B f m,
  match m with Ok a => f a | Raise e => Raise e end.
#[export] Instance result_fmap : FMap result := λ A B f m,
  match m with Ok a => Ok (f a) | Raise e => Raise e end.

(** ** pydantic validators (lax mode), on decoded JSON values *)

Module Pydantic.

(** [str]: only a string is a string; numbers are not coerced. *)
Definition validate_str (v : json) : result string :=
  match v with
  | JStr s => Ok s
  | _ => Raise ValidationError
  end.

Definition to_ascii_lowercase (c : ascii) : ascii :=
  let n := nat_of_ascii c in
  if (Nat.leb 65 n && Nat.leb n 90)%bool then ascii_of_nat (n + 32) else c.

Fixpoint lower (s : string) : string :=
  match s with
  | EmptyString => EmptyString
  | String c s' => String (to_ascii_lowercase c) (lower s')
  end.

Definition eq_ignore_ascii_case (s t : string) : bool :=
  bool_decide (lower s = lower t).

Definition any_ignore_case (s : string) (l : list string) : bool :=
  existsb (eq_ignore_ascii_case s) l.

Definition str_as_bool (s : string) : result bool :=
  if bool_decide (s = "0") || any_ignore_case s ["f"; "n"; "no"; "off"; "false"]
  then Ok false
  else if bool_decide (s = "1") || any_ignore_case s ["t"; "y"; "on"; "yes"; "true"]
  then Ok true
  else Raise ValidationError.

Definition int_as_bool (n : Z) : result bool :=
  if bool_decide (n = 0) then Ok false
  else if bool_decide (n = 1) then Ok true
  else Raise ValidationError.

(** [bool]: a boolean, one of the accepted words, or the number 0 or 1. *)
Definition validate_bool (v : json) : result bool :=
  match v with
  | JBool b => Ok b
  | JStr s => str_as_bool s
  | JInt n => int_as_bool n
  | JFloat f =>
      if PrimFloat.eqb f 0%float then Ok false
      else if PrimFloat.eqb f 1%float then Ok true
      else Raise ValidationError
  | _ => Raise ValidationError
  end.

(** [Optional[T]]: [None], or a [T]. *)
Definition optional {A : Type} (validate : json → result A) (v : json)
  : result (option A) :=
  match v with
  | JNull => Ok None
  | _ => Some <$> validate v
  end.

(** [Field(max_length=n)] on a string. *)
Definition max_length (n : nat) (s : string) : result string :=
  if Nat.leb (String.length s) n then Ok s else Raise ValidationError.

(** A field with a default: absent from the data, it takes the default. *)
Definition with_default {A : Type} (validate : json → result A) (default : A)
    (v : option json) : result A :=
  match v with
  | None => Ok default
  | Some x => validate x
  end.

(** A required field. *)
Definition required {A : Type} (validate : json → result A) (v : option json)
  : result A :=
  match v with
  | None => Raise ValidationError
  | Some x => validate x
  end.

(** [datetime.date] from a string in the ISO format YYYY-MM-DD: the
    instance of the date validator used in the examples. *)
Definition digit (c : ascii) : option Z :=
  let n := Z.of_nat (nat_of_ascii c) in
  if bool_decide (48 ≤ n ≤ 57) then Some (n - 48) else None.

Fixpoint number (acc : Z) (cs : list ascii) : option Z :=
  match cs with
  | [] => Some acc
  | c :: cs' => d ← digit c; number (10 * acc + d) cs'
  end.

Definition is_leap (y : Z) : bool :=
  bool_decide (y mod 4 = 0) && (negb (bool_decide (y mod 100 = 0))
                                || bool_decide (y mod 400 = 0)).

Definition days_in_month (y m : Z) : Z :=
  if bool_decide (m = 2) then (if is_leap y then 29 else 28)
  else if bool_decide (m ∈ [4; 6; 9; 11]) then 30
  else 31.

Definition date_fromisoformat (s : string) : option date :=
  match String.list_ascii_of_string s with
  | [y1; y2; y3; y4; "-"%char; m1; m2; "-"%char; d1; d2] =>
      y ← number 0 [y1; y2; y3; y4];
      m ← number 0 [m1; m2];
      d ← number 0 [d1; d2];
      if bool_decide (1 ≤ y ∧ 1 ≤ m ≤ 12 ∧ 1 ≤ d ≤ days_in_month y m)
      then Some (mkDate y m d) else None
  | _ => None
  end.

Definition validate_iso_date (v : json) : result date :=
  match v with
  | JStr s =>
      match date_fromisoformat s with
      | Some d => Ok d
      | None => Raise ValidationError
      end
  | _ => Raise ValidationError
  end.

(** Keyword unpacking of the data into a model's constructor: the
    unpacked value has to be a mapping. *)
Definition kwargs (data : json) : result (gmap string json) :=
  match data with
  | JObj m => Ok m
  | _ => Raise TypeError
  end.

End Pydantic.

(** ** The models *)

Module TodoItem.
(** An instance of the table model.  Python does not enforce the
    annotations of a table model on assignment: any attribute can hold
    [None]; the NOT NULL columns are checked by the store. *)
Record t : Type := mk {
  id : option Z;
  title : option string;
  description : option string;
  completed : option bool;
  priority : option string;
  due_date : option date
}.
End TodoItem.

Module TodoItemCreate.
Record t : Type := mk {
  title : string;
  description : option string;
  priority : option string;
  due_date : option date
}.
End TodoItemCreate.

Module TodoItemUpdate.
Record t : Type := mk {
  title : option string;
  description : option string;
  completed : option bool;
  priority : option string;
  due_date : option date;
  model_fields_set : gset string
}.
End TodoItemUpdate.

Module TranslationRequest.
Record t : Type := mk {
  text : string;
  target_language : string
}.
End TranslationRequest.

Module TranslationResponse.
Record t : Type := mk { translated_text : string }.
End TranslationResponse.

(** One item of [model_dump(exclude_unset=True)] of a [TodoItemUpdate]:
    the key names the attribute, the value has the type of its field. *)
Inductive item : Type :=
  | title_item (v : option string)
  | description_item (v : option string)
  | completed_item (v : option bool)
  | priority_item (v : option string)
  | due_date_item (v : option date).

(** [setattr(todo, key, value)] *)
Definition setattr (todo : TodoItem.t) (kv : item) : TodoItem.t :=
  let '(TodoItem.mk i t d c p dd) := todo in
  match kv with
  | title_item v => TodoItem.mk i v d c p dd
  | description_item v => TodoItem.mk i t v c p dd
  | completed_item v => TodoItem.mk i t d v p dd
  | priority_item v => TodoItem.mk i t d c v dd
  | due_date_item v => TodoItem.mk i t d c p v
  end.

(** ** The store *)

(** The store is the PostgreSQL database the module is configured for
    (line 33), with the table [create_all] derives from [TodoItem]; it
    holds what it is given to the declared columns and constraints.

    A row of table [todoitem]: [title] and [completed] are NOT NULL,
    [priority] is VARCHAR(50), the primary key [id] is the key of the row
    in the table. *)
Record row : Type := mkRow {
  row_title : string;
  row_description : option string;
  row_completed : bool;
  row_priority : option string;
  row_due_date : option date
}.

(** The table and the sequence that assigns the next primary key. *)
Record store : Type := mkStore {
  rows : gmap Z row;
  next_id : Z
}.

(** The statements a session sends to the store.  [session.commit]
    flushes the pending INSERT, UPDATE or DELETE and then sends COMMIT;
    when it fails, [AtCommit] tells where: at the COMMIT, after the
    statement has been executed, or before that, at the flush. *)
Inductive db_call : Type :=
  | CreateAll    (* metadata.create_all *)
  | Select       (* session.exec(select(TodoItem)) *)
  | Get          (* session.get *)
  | Commit       (* session.commit: flush, then commit *)
  | Refresh      (* session.refresh *)
  | AtCommit.    (* a failing session.commit fails at its COMMIT *)

(** Which statements of a request fail for a reason outside the program
    (the store is down, the connection is lost). *)
Definition faults : Type := db_call → bool.

Definition no_faults : faults := λ _, false.

(** The object the session builds from the row at key [k]. *)
Definition load (k : Z) (r : row) : TodoItem.t :=
  TodoItem.mk (Some k) (Some (row_title r)) (row_description r)
    (Some (row_completed r)) (row_priority r) (row_due_date r).

Definition not_null {A : Type} (v : option A) : result A :=
  match v with
  | Some a => Ok a
  | None => Raise IntegrityError
  end.

(** A text that holds a NUL character: the driver does not send it. *)
Fixpoint has_nul (s : string) : bool :=
  match s with
  | EmptyString => false
  | String c s' => bool_decide (c = Ascii.zero) || has_nul s'
  end.

(** The driver adapts a text parameter of a statement. *)
Definition adapt (v : option string) : result unit :=
  match v with
  | Some s => if has_nul s then Raise ValueError else Ok ()
  | None => Ok ()
  end.

Fixpoint blank (s : string) : bool :=
  match s with
  | EmptyString => true
  | String c s' => bool_decide (c = " "%char) && blank s'
  end.

(** A text assigned to a column VARCHAR(n): what is beyond [n]
    characters is cut off when it is spaces only, and the text is
    refused otherwise. *)
Fixpoint truncate (n : nat) (s : string) {struct s} : option string :=
  match s with
  | EmptyString => Some EmptyString
  | String c s' =>
      match n with
      | O => if blank (String c s') then Some EmptyString else None
      | S n' => String c <$> truncate n' s'
      end
  end.

Definition varchar (n : nat) (v : option string) : result (option string) :=
  match v with
  | Some s =>
      match truncate n s with
      | Some s' => Ok (Some s')
      | None => Raise DataError
      end
  | None => Ok None
  end.

(** The parameters of an INSERT: every text column. *)
Definition adapt_insert (todo : TodoItem.t) : result unit :=
  _ ← adapt (TodoItem.title todo);
  _ ← adapt (TodoItem.description todo);
  adapt (TodoItem.priority todo).

(** The row an INSERT makes: every column is checked. *)
Definition insert_row (todo : TodoItem.t) : result row :=
  p ← varchar 50 (TodoItem.priority todo);
  t ← not_null (TodoItem.title todo);
  c ← not_null (TodoItem.completed todo);
  mret (mkRow t (TodoItem.description todo) c p (TodoItem.due_date todo)).

(** A parameter of an UPDATE: a column whose attribute differs from the
    loaded value. *)
Definition adapt_changed (new old : option string) : result unit :=
  if bool_decide (new = old) then Ok () else adapt new.

(** UPDATE of the row [r] an object was loaded from: the statement sets
    the columns whose attribute differs from the loaded value, and only
    they are sent and checked. *)
Definition flush_update (r : row) (todo : TodoItem.t) : result row :=
  _ ← adapt_changed (TodoItem.title todo) (Some (row_title r));
  _ ← adapt_changed (TodoItem.description todo) (row_description r);
  _ ← adapt_changed (TodoItem.priority todo) (row_priority r);
  p ← (if bool_decide (TodoItem.priority todo = row_priority r)
       then Ok (row_priority r)
       else varchar 50 (TodoItem.priority todo));
  t ← not_null (TodoItem.title todo);
  c ← not_null (TodoItem.completed todo);
  mret (mkRow t (TodoItem.description todo) c p (TodoItem.due_date todo)).

(** ** Computations on the store that can raise *)

Record db (A : Type) : Type := Db { run : store → result A * store }.
Arguments Db {A} run.
Arguments run {A} d st.

#[export] Instance db_ret : MRet db := λ A a, Db (λ st, (Ok a, st)).
#[export] Instance db_bind : MBind db := λ A B f m, Db (λ st,
  match run m st with
  | (Ok a, st') => run (f a) st'
  | (Raise e, st') => (Raise e, st')
  end).

Definition lift {A : Type} (m : result A) : db A := Db (λ st, (m, st)).
Definition raise {A : Type} (e : exn) : db A := lift (Raise e).
Definition get_store : db store := Db (λ st, (Ok st, st)).
Definition put_store (st : store) : db unit := Db (λ _, (Ok (), st)).

(** [try: m  except Exception as e: handler e] *)
Definition try_except {A : Type} (m : db A) (handler : exn → db A) : db A :=
  Db (λ st,
  match run m st with
  | (Ok a, st') => (Ok a, st')
  | (Raise e, st') => run (handler e) st'
  end).

(** A session is opened for each request ([get_session]) and closed on
    every path out of the view function.  What was assigned to an object
    and not committed lives in the object only, so closing the session
    leaves the store as the last commit made it. *)

(** A statement reaches the store, or fails. *)
Definition execute (fl : faults) (c : db_call) : db unit :=
  if fl c then raise OperationalError else mret ().

(** [session.get(TodoItem, k)] *)
Definition session_get (fl : faults) (k : Z) : db (option TodoItem.t) :=
  _ ← execute fl Get;
  st ← get_store;
  mret (load k <$> rows st !! k).

(** The flush of [session.commit] reaches the store, or fails there. *)
Definition execute_flush (fl : faults) : db unit :=
  if fl Commit && negb (fl AtCommit) then raise OperationalError else mret ().

(** The primary key is an INTEGER, and its sequence ends with it. *)
Definition max_integer : Z := 2147483647.
Definition min_integer : Z := -2147483648.

(** The next number of the sequence.  A number drawn is never given
    back, whatever becomes of the transaction. *)
Definition nextval : db Z :=
  st ← get_store;
  if bool_decide (next_id st ≤ max_integer)
  then _ ← put_store (mkStore (rows st) (next_id st + 1)); mret (next_id st)
  else raise DataError.

(** The INSERT of a new object: the driver adapts the texts, the key is
    drawn from the sequence when the object has none, and the store
    checks the columns and the key. *)
Definition flush_insert (todo : TodoItem.t) : db Z :=
  _ ← lift (adapt_insert todo);
  k ← match TodoItem.id todo with
      | None => nextval
      | Some k =>
          if bool_decide (min_integer ≤ k ≤ max_integer) then mret k
          else raise DataError
      end;
  r ← lift (insert_row todo);
  st ← get_store;
  match rows st !! k with
  | Some _ => raise IntegrityError
  | None => _ ← put_store (mkStore (<[k := r]> (rows st)) (next_id st)); mret k
  end.

(** A transaction that does not commit leaves the rows as they were
    [before]; the sequence stays where it is. *)
Definition rollback (before : store) : db unit :=
  st ← get_store;
  put_store (mkStore (rows before) (next_id st)).

(** [session.add(todo); session.commit()] for a new object. *)
Definition session_add_commit (fl : faults) (todo : TodoItem.t) : db Z :=
  _ ← execute_flush fl;
  before ← get_store;
  k ← flush_insert todo;
  if fl Commit then _ ← rollback before; raise OperationalError
  else mret k.

(** [session.add(todo); session.commit()] for an object loaded from the
    row at key [k] and modified since. *)
Definition session_commit_dirty (fl : faults) (k : Z) (todo : TodoItem.t)
  : db unit :=
  _ ← execute_flush fl;
  st ← get_store;
  match rows st !! k with
  | None => raise StaleDataError
  | Some r =>
      r' ← lift (flush_update r todo);
      _ ← execute fl Commit;
      put_store (mkStore (<[k := r']> (rows st)) (next_id st))
  end.

(** [session.delete(todo); session.commit()] for the object loaded from
    the row at key [k]. *)
Definition session_delete_commit (fl : faults) (k : Z) : db unit :=
  _ ← execute fl Commit;
  st ← get_store;
  put_store (mkStore (delete k (rows st)) (next_id st)).

(** [session.refresh(todo)] for the object of primary key [k]. *)
Definition session_refresh (fl : faults) (k : Z) : db TodoItem.t :=
  _ ← execute fl Refresh;
  st ← get_store;
  match rows st !! k with
  | Some r => mret (load k r)
  | None => raise StaleDataError
  end.

(** [session.exec(select(TodoItem)).all()] *)
Definition session_select_all (fl : faults) : db (list TodoItem.t) :=
  _ ← execute fl Select;
  st ← get_store;
  mret (uncurry load <$> map_to_list (rows st)).

(** ** Responses *)

(** The text of a [detail]: a literal, or a prefix followed by the text
    of the exception caught. *)
Inductive detail : Type :=
  | Literal (s : string)
  | Failed (prefix : string) (e : exn).

Inductive body : Type :=
  | Empty                              (* the empty string *)
  | Html (page : string)               (* a rendered page *)
  | Todo (todo : TodoItem.t)           (* jsonify(todo.model_dump(mode='json')) *)
  | Todos (todos : list TodoItem.t)
  | Detail (d : detail)                (* jsonify of a dict with the key detail *)
  | Translation (r : TranslationResponse.t).

Record response : Type := mkResponse {
  content : body;
  status : Z
}.

(** The answer of the framework to an exception nothing caught. *)
Definition internal_server_error : response :=
  mkResponse (Html "Internal Server Error") 500.

(** A view function runs to its response; an exception that leaves it is
    answered by the framework. *)
Definition view (m : db response) (st : store) : response * store :=
  match run m st with
  | (Ok r, st') => (r, st')
  | (Raise e, st') => (internal_server_error, st')
  end.

(** ** The translation backend *)

Record GenerativeModel : Type := mkModel { model_name : string }.

(** What is outside the program while one request is served: the
    statements that fail, and what the backend answers to a prompt. *)
Record world : Type := mkWorld {
  db_faults : faults;
  generate_content : GenerativeModel → string → result string
}.

(** The module-level configuration of the backend (lines 17 to 27): no
    model without a key, or when the client library raises. *)
Definition configure_gemini (GOOGLE_API_KEY : option string)
    (genai_raises : bool) : option GenerativeModel :=
  match GOOGLE_API_KEY with
  | None => None
  | Some key =>
      if bool_decide (key = "") then None
      else if genai_raises then None
      else Some (mkModel "gemini-2.5-flash")
  end.

(** The process: the module globals and the store behind the engine. *)
Record app : Type := mkApp {
  gemini_model : option GenerativeModel;
  db_initialized : bool;
  database : store
}.

(** Loading the module: the database URL is required. *)
Definition startup (environ : gmap string string) (genai_raises : bool)
    (st : store) : option app :=
  let model := configure_gemini (environ !! "GOOGLE_API_KEY") genai_raises in
  match environ !! "DATABASE_URL" with
  | None => None
  | Some url =>
      if bool_decide (url = "") then None
      else Some (mkApp model false st)
  end.

(** ** Requests *)

(** The body of a request as [request.json] finds it: sent with a
    content type that is not JSON, sent as JSON that does not parse, or
    decoded to a value. *)
Inductive payload : Type :=
  | NotJson
  | Malformed
  | Decoded (data : json).

(** A decoded value stands for the body that decodes to it. *)
Coercion Decoded : json >-> payload.

(** [request.json]: the decoded value, or the exception of the framework
    that ends the request with its page (415 for a content type that is
    not JSON, 400 for a body that does not parse).  The view functions
    read it outside their [try] blocks. *)
Definition request_json (p : payload) : response + json :=
  match p with
  | NotJson => inl (mkResponse (Html "Unsupported Media Type") 415)
  | Malformed => inl (mkResponse (Html "Bad Request") 400)
  | Decoded data => inr data
  end.

Inductive request : Type :=
  | GET_index
  | GET_todos
  | POST_todos (todo_data : payload)
  | PUT_todos (todo_id : Z) (todo_data : payload)
  | DELETE_todos (todo_id : Z)
  | POST_translate (request_data : payload).

(** pydantic's validator of [datetime.date], on a decoded JSON value
    that is not null.  The handlers are written over any such validator. *)
Class DateValidator : Type := validate_date : json → result date.

Section Handlers.

Context {dates : DateValidator}.

(** ** Building the models from the request data *)

Definition TodoItemCreate_init (todo_data : json) : result TodoItemCreate.t :=
  data ← Pydantic.kwargs todo_data;
  title ← Pydantic.required Pydantic.validate_str (data !! "title");
  description ← Pydantic.with_default
    (Pydantic.optional Pydantic.validate_str) None (data !! "description");
  priority ← Pydantic.with_default
    (Pydantic.optional Pydantic.validate_str) None (data !! "priority");
  due_date ← Pydantic.with_default
    (Pydantic.optional validate_date) None (data !! "due_date");
  mret (TodoItemCreate.mk title description priority due_date).

(** [TodoItem.model_validate(todo_create)]: the fields are read from the
    attributes of [todo_create], [id] and [completed] take their
    defaults, and [priority] is held to [max_length=50]. *)
Definition TodoItem_model_validate (todo_create : TodoItemCreate.t)
  : result TodoItem.t :=
  priority ← match TodoItemCreate.priority todo_create with
             | None => Ok None
             | Some s => Some <$> Pydantic.max_length 50 s
             end;
  mret (TodoItem.mk None (Some (TodoItemCreate.title todo_create))
          (TodoItemCreate.description todo_create) (Some false) priority
          (TodoItemCreate.due_date todo_create)).

Definition update_fields : gset string :=
  {[ "title"; "description"; "completed"; "priority"; "due_date" ]}.

Definition TodoItemUpdate_init (todo_data : json) : result TodoItemUpdate.t :=
  data ← Pydantic.kwargs todo_data;
  title ← Pydantic.with_default
    (Pydantic.optional Pydantic.validate_str) None (data !! "title");
  description ← Pydantic.with_default
    (Pydantic.optional Pydantic.validate_str) None (data !! "description");
  completed ← Pydantic.with_default
    (Pydantic.optional Pydantic.validate_bool) None (data !! "completed");
  priority ← Pydantic.with_default
    (Pydantic.optional Pydantic.validate_str) None (data !! "priority");
  due_date ← Pydantic.with_default
    (Pydantic.optional validate_date) None (data !! "due_date");
  mret (TodoItemUpdate.mk title description completed priority due_date
          (dom data ∩ update_fields)).

(** [todo_update.model_dump(exclude_unset=True)], in the order of the
    fields. *)
Definition model_dump_exclude_unset (u : TodoItemUpdate.t) : list item :=
  let unless_unset (k : string) (kv : item) : list item :=
    if bool_decide (k ∈ TodoItemUpdate.model_fields_set u) then [kv] else [] in
  unless_unset "title" (title_item (TodoItemUpdate.title u)) ++
  unless_unset "description" (description_item (TodoItemUpdate.description u)) ++
  unless_unset "completed" (completed_item (TodoItemUpdate.completed u)) ++
  unless_unset "priority" (priority_item (TodoItemUpdate.priority u)) ++
  unless_unset "due_date" (due_date_item (TodoItemUpdate.due_date u)).

Definition TranslationRequest_init (request_data : json)
  : result TranslationRequest.t :=
  data ← Pydantic.kwargs request_data;
  text ← Pydantic.required Pydantic.validate_str (data !! "text");
  target_language ← Pydantic.required Pydantic.validate_str
    (data !! "target_language");
  mret (TranslationRequest.mk text target_language).

(** ** The view functions *)

Definition jsonify_detail (d : detail) (code : Z) : response :=
  mkResponse (Detail d) code.

Definition not_found : response :=
  jsonify_detail (Literal "To-Do item not found") 404.

Definition get_all_todos_flask (fl : faults) : db response :=
  todos ← session_select_all fl;
  mret (mkResponse (Todos todos) 200).

Definition create_todo_flask (fl : faults) (todo_data : json) : db response :=
  try_except
    (todo_create ← lift (TodoItemCreate_init todo_data);
     db_todo ← lift (TodoItem_model_validate todo_create);
     pk ← session_add_commit fl db_todo;
     db_todo ← session_refresh fl pk;
     mret (mkResponse (Todo db_todo) 201))
    (λ e, mret (jsonify_detail (Failed "Failed to create todo: " e) 400)).

Definition update_todo_flask (fl : faults) (todo_id : Z) (todo_data : json)
  : db response :=
  try_except
    (todo ← session_get fl todo_id;
     match todo with
     | None => mret not_found
     | Some todo =>
         todo_update ← lift (TodoItemUpdate_init todo_data);
         let update_data := model_dump_exclude_unset todo_update in
         let todo := foldl setattr todo update_data in
         _ ← session_commit_dirty fl todo_id todo;
         todo ← session_refresh fl todo_id;
         mret (mkResponse (Todo todo) 200)
     end)
    (λ e, mret (jsonify_detail (Failed "Failed to update todo: " e) 500)).

Definition delete_todo_flask (fl : faults) (todo_id : Z) : db response :=
  try_except
    (todo ← session_get fl todo_id;
     match todo with
     | None => mret not_found
     | Some todo =>
         _ ← session_delete_commit fl todo_id;
         mret (mkResponse Empty 204)
     end)
    (λ e, mret (jsonify_detail (Failed "Failed to delete todo: " e) 500)).

Definition unavailable : response :=
  jsonify_detail
    (Literal "Translation service not available. API key might be missing or invalid.")
    503.

(** The response, and the prompts sent to the backend. *)
Definition translate_text_flask (model : option GenerativeModel)
    (w : world) (request_data : json) : response * list string :=
  match model with
  | None => (unavailable, [])
  | Some m =>
      match TranslationRequest_init request_data with
      | Raise e =>
          (jsonify_detail (Failed "Failed to translate text: " e) 500, [])
      | Ok translation_request =>
          let prompt :=
            "Translate the following text into " +:+
            TranslationRequest.target_language translation_request +:+ ": " +:+
            TranslationRequest.text translation_request in
          match generate_content w m prompt with
          | Raise e =>
              (jsonify_detail (Failed "Failed to translate text: " e) 500,
               [prompt])
          | Ok translated_content =>
              (mkResponse (Translation (TranslationResponse.mk translated_content))
                 200, [prompt])
          end
      end
  end.

(** ** The process *)

(** The routes: each request runs its view function on the store.  The
    view functions above are written from the value [request.json] gave:
    [create_todo_flask] and [update_todo_flask] read it first (lines 116
    and 139), [translate_text_flask] after it has looked at the model
    (line 192); a body that does not decode ends the request there. *)
Definition dispatch (w : world) (a : app) (rq : request)
  : response * app * list string :=
  let on_store (m : db response) : response * app * list string :=
    let '(r, st) := view m (database a) in
    (r, mkApp (gemini_model a) (db_initialized a) st, []) in
  let on_json (p : payload) (k : json → response * app * list string)
    : response * app * list string :=
    match request_json p with
    | inl page => (page, a, [])
    | inr data => k data
    end in
  match rq with
  | GET_index => (mkResponse (Html "index.html") 200, a, [])
  | GET_todos => on_store (get_all_todos_flask (db_faults w))
  | POST_todos p =>
      on_json p (λ todo_data,
        on_store (create_todo_flask (db_faults w) todo_data))
  | PUT_todos todo_id p =>
      on_json p (λ todo_data,
        on_store (update_todo_flask (db_faults w) todo_id todo_data))
  | DELETE_todos todo_id => on_store (delete_todo_flask (db_faults w) todo_id)
  | POST_translate p =>
      match gemini_model a with
      | None => (unavailable, a, [])
      | Some _ =>
          on_json p (λ request_data,
            let '(r, prompts) :=
              translate_text_flask (gemini_model a) w request_data in
            (r, a, prompts))
      end
  end.

(** [ensure_db_tables_exist], run before every request: the tables are
    created once; when that fails the flag stays unset. *)
Definition ensure_db_tables_exist (w : world) (a : app) : result app :=
  if db_initialized a then Ok a
  else if db_faults w CreateAll then Raise OperationalError
  else Ok (mkApp (gemini_model a) true (database a)).

Definition serve (w : world) (a : app) (rq : request)
  : response * app * list string :=
  match ensure_db_tables_exist w a with
  | Raise e => (internal_server_error, a, [])
  | Ok a' => dispatch w a' rq
  end.

(** Serving requests one after the other: the responses, the process at
    the end, and every prompt sent to the backend. *)
Fixpoint serve_all (a : app) (rqs : list (world * request))
  : list response * app * list string :=
  match rqs with
  | [] => ([], a, [])
  | (w, rq) :: rest =>
      let '(r, a', prompts) := serve w a rq in
      let '(rs, a'', prompts') := serve_all a' rest in
      (r :: rs, a'', prompts ++ prompts')
  end.

End Handlers.

(** The validator that reads ISO calendar dates. *)
#[export] Instance iso_dates : DateValidator := Pydantic.validate_iso_date.

(** ** Invariants of the store *)

(** The sequence is ahead of every primary key in the table. *)
Definition sequence_ahead (st : store) : Prop :=
  map_Forall (λ k _, k < next_id st) (rows st).

Definition capped (p : option string) : Prop :=
  match p with
  | None => True
  | Some s => (String.length s ≤ 50)%nat
  end.

(** Every stored [priority] fits its column. *)
Definition priorities_capped (st : store) : Prop :=
  map_Forall (λ _ r, capped (row_priority r)) (rows st).

(** The text a request body gives for [title], when it gives one. *)
Definition title_of (todo_data : json) : option string :=
  match todo_data with
  | JObj m =>
      match m !! "title" with
      | Some (JStr t) => Some t
      | _ => None
      end
  | _ => None
  end.

(** The text a request body gives for [priority], when it gives one. *)
Definition priority_of (todo_data : json) : option string :=
  match todo_data with
  | JObj m =>
      match m !! "priority" with
      | Some (JStr p) => Some p
      | _ => None
      end
  | _ => None
  end.

Definition with_completed (b : bool) (r : row) : row :=
  mkRow (row_title r) (row_description r) b (row_priority r) (row_due_date r).

(** What one request can do to the store: nothing, draw a number from
    the sequence for an INSERT that then fails, insert a row under the
    next key of the sequence, replace a stored row, or delete one.  A
    row written fits the [priority] column, and a row replaced keeps
    fitting it. *)
Inductive writes (st : store) : store → Prop :=
  | writes_nothing :
      writes st st
  | writes_drawn :
      writes st (mkStore (rows st) (next_id st + 1))
  | writes_insert (r : row) :
      rows st !! next_id st = None →
      capped (row_priority r) →
      writes st (mkStore (<[next_id st := r]> (rows st)) (next_id st + 1))
  | writes_replace (k : Z) (r r' : row) :
      rows st !! k = Some r →
      (capped (row_priority r) → capped (row_priority r')) →
      writes st (mkStore (<[k := r']> (rows st)) (next_id st))
  | writes_delete (k : Z) :
      writes st (mkStore (delete k (rows st)) (next_id st)).


(** ** Examples *)

Definition milk : row := mkRow "Buy milk" None false None None.

(** An empty table, and a table with one row. *)
Definition no_todo : store := mkStore ∅ 1.
Definition one_todo : store := mkStore {[ 1 := milk ]} 2.


(** The store executes the statement of a commit and then refuses the
    COMMIT. *)
Definition commit_fails_late : faults :=
  λ c, match c with Commit | AtCommit => true | _ => false end.

(** A backend that answers every prompt with the prompt. *)
Definition echo : world := mkWorld no_faults (λ _ prompt, Ok prompt).

(** 51 characters *)
Definition too_long : string :=
  "012345678901234567890123456789012345678901234567890".

(** 50 characters, and the same followed by a space *)
Definition fifty : string :=
  "01234567890123456789012345678901234567890123456789".
Definition padded : string := fifty +:+ " ".

(** An environment with a database and no backend credential. *)
Definition database_only : gmap string string :=
  {[ "DATABASE_URL" := "postgresql://todo" ]}.

(** A body with a title only, and the row it makes. *)
Definition walk : gmap string json := {[ "title" := JStr "Walk" ]}.
Definition walk_row : row := mkRow "Walk" None false None None.

(** A translation request, and a configured model. *)
Definition hello_in_french : gmap string json :=
  {[ "text" := JStr "hello"; "target_language" := JStr "French" ]}.
Definition gemini : GenerativeModel := mkModel "gemini-2.5-flash".

(** The tables cannot be created. *)
Definition setup_fails : world :=
  mkWorld (λ c, match c with CreateAll => true | _ => false end)
    (λ _ prompt, Ok prompt).

(** ** The keys the request models read *)

Definition create_keys : list string :=
  ["title"; "description"; "priority"; "due_date"].

Definition update_keys : list string :=
  ["title"; "description"; "completed"; "priority"; "due_date"].

Definition translation_keys : list string := ["text"; "target_language"].

(** Two request bodies that give the same value, or none, for each of
    the keys. *)
Definition agree_on (keys : list string) (m m' : gmap string json) : Prop :=
  Forall (λ k, m !! k = m' !! k) keys.

(** The prompt sent to the backend (line 195). *)
Definition prompt_for (target_language text : string) : string :=
  "Translate the following text into " +:+ target_language +:+ ": " +:+ text.

(** * Properties *)

Section Properties.

Context {dates : DateValidator}.

(** ** Running a computation *)

Lemma run_bind {A B : Type} (m : db A) (f : A → db B) (st : store) :
  run (m ≫= f) st =
  match run m st with
  | (Ok a, st') => run (f a) st'
  | (Raise e, st') => (Raise e, st')
  end.
Proof. reflexivity. Qed.

Lemma run_execute (fl : faults) (c : db_call) (st : store) :
  run (execute fl c) st =
  (if fl c then Raise OperationalError else Ok (), st).
Proof. unfold execute. by destruct (fl c). Qed.

Lemma run_session_get (fl : faults) (k : Z) (st : store) :
  run (session_get fl k) st =
  if fl Get then (Raise OperationalError, st)
  else (Ok (load k <$> rows st !! k), st).
Proof.
  unfold session_get. rewrite run_bind, run_execute. by destruct (fl Get).
Qed.

Lemma run_execute_flush (fl : faults) (st : store) :
  run (execute_flush fl) st =
  (if fl Commit && negb (fl AtCommit) then Raise OperationalError else Ok (),
   st).
Proof. unfold execute_flush. by destruct (fl Commit && negb (fl AtCommit)). Qed.

Lemma run_nextval (st : store) :
  run nextval st =
  if bool_decide (next_id st ≤ max_integer)
  then (Ok (next_id st), mkStore (rows st) (next_id st + 1))
  else (Raise DataError, st).
Proof.
  unfold nextval. rewrite run_bind. cbn [get_store run]. by case_bool_decide.
Qed.

Lemma run_session_add_commit (fl : faults) (todo : TodoItem.t) (st : store) :
  TodoItem.id todo = None →
  run (session_add_commit fl todo) st =
  if fl Commit && negb (fl AtCommit) then (Raise OperationalError, st)
  else match adapt_insert todo with
       | Raise e => (Raise e, st)
       | Ok _ =>
           if bool_decide (next_id st ≤ max_integer) then
             let drawn := mkStore (rows st) (next_id st + 1) in
             match insert_row todo with
             | Raise e => (Raise e, drawn)
             | Ok r =>
                 match rows st !! next_id st with
                 | Some _ => (Raise IntegrityError, drawn)
                 | None =>
                     if fl Commit then (Raise OperationalError, drawn)
                     else (Ok (next_id st),
                           mkStore (<[next_id st := r]> (rows st))
                             (next_id st + 1))
                 end
             end
           else (Raise DataError, st)
       end.
Proof.
  intros Hid. unfold session_add_commit.
  rewrite run_bind, run_execute_flush.
  destruct (fl Commit && negb (fl AtCommit)); [done|].
  rewrite run_bind. cbn [get_store run]. rewrite run_bind.
  unfold flush_insert. rewrite run_bind. cbn [lift run].
  destruct (adapt_insert todo); [|done].
  rewrite Hid, run_bind, run_nextval.
  case_bool_decide; [|done]. cbn zeta.
  rewrite run_bind. cbn [lift run]. destruct (insert_row todo) as [r|]; [|done].
  rewrite run_bind. cbn [get_store run rows next_id].
  destruct (rows st !! next_id st); [done|].
  rewrite run_bind. cbn [put_store run mret db_ret].
  by destruct (fl Commit).
Qed.

Lemma run_session_commit_dirty (fl : faults) (k : Z) (todo : TodoItem.t)
    (st : store) :
  run (session_commit_dirty fl k todo) st =
  if fl Commit && negb (fl AtCommit) then (Raise OperationalError, st)
  else match rows st !! k with
       | None => (Raise StaleDataError, st)
       | Some r =>
           match flush_update r todo with
           | Raise e => (Raise e, st)
           | Ok r' =>
               if fl Commit then (Raise OperationalError, st)
               else (Ok (), mkStore (<[k := r']> (rows st)) (next_id st))
           end
       end.
Proof.
  unfold session_commit_dirty.
  rewrite run_bind, run_execute_flush.
  destruct (fl Commit && negb (fl AtCommit)); [done|].
  rewrite run_bind. cbn [get_store run].
  destruct (rows st !! k); [|done].
  rewrite run_bind. cbn [lift run]. destruct (flush_update _ _); [|done].
  rewrite run_bind, run_execute. by destruct (fl Commit).
Qed.

Lemma run_session_delete_commit (fl : faults) (k : Z) (st : store) :
  run (session_delete_commit fl k) st =
  if fl Commit then (Raise OperationalError, st)
  else (Ok (), mkStore (delete k (rows st)) (next_id st)).
Proof.
  unfold session_delete_commit.
  rewrite run_bind, run_execute. by destruct (fl Commit).
Qed.

Lemma run_session_refresh (fl : faults) (k : Z) (st : store) :
  run (session_refresh fl k) st =
  if fl Refresh then (Raise OperationalError, st)
  else match rows st !! k with
       | Some r => (Ok (load k r), st)
       | None => (Raise StaleDataError, st)
       end.
Proof.
  unfold session_refresh.
  rewrite run_bind, run_execute. destruct (fl Refresh); [done|].
  rewrite run_bind. cbn [get_store run]. by destruct (rows st !! k).
Qed.

Lemma run_try_except {A : Type} (m : db A) (handler : exn → db A) (st : store) :
  run (try_except m handler) st =
  match run m st with
  | (Ok a, st') => (Ok a, st')
  | (Raise e, st') => run (handler e) st'
  end.
Proof. reflexivity. Qed.

(** Writing a row back where it is changes nothing. *)
Lemma store_insert_id (st : store) (k : Z) (r : row) :
  rows st !! k = Some r →
  mkStore (<[k := r]> (rows st)) (next_id st) = st.
Proof. intros H. destruct st as [m n]. cbn in *. by rewrite insert_id. Qed.

(** ** The view functions, statement by statement *)

(** The row a validated item makes, whatever its texts. *)
Lemma TodoItem_model_validate_row (c : TodoItemCreate.t) (todo : TodoItem.t) :
  TodoItem_model_validate c = Ok todo →
  TodoItem.id todo = None ∧
  insert_row todo =
    Ok (mkRow (TodoItemCreate.title c) (TodoItemCreate.description c) false
          (TodoItemCreate.priority c) (TodoItemCreate.due_date c)).
Proof.
  unfold TodoItem_model_validate, Pydantic.max_length.
  destruct (TodoItemCreate.priority c) as [p|]; cbn.
  - destruct (Nat.leb (String.length p) 50) eqn:Hlen; cbn; [|done].
    intros [= <-]. split; [done|]. unfold insert_row. cbn.
    assert (∀ n s, Nat.leb (String.length s) n = true → truncate n s = Some s)
      as Hfits.
    { intros n s. revert n. induction s as [|a s IH]; intros n Hn; [done|].
      destruct n as [|n]; cbn in Hn; [done|]. cbn. by rewrite IH. }
    by rewrite Hfits.
  - by intros [= <-].
Qed.

Lemma view_create (fl : faults) (todo_data : json) (st : store) :
  view (create_todo_flask fl todo_data) st =
  let failed e :=
    jsonify_detail (Failed "Failed to create todo: " e) 400 in
  match TodoItemCreate_init todo_data ≫= TodoItem_model_validate with
  | Raise e => (failed e, st)
  | Ok db_todo =>
      if fl Commit && negb (fl AtCommit) then (failed OperationalError, st)
      else match adapt_insert db_todo with
      | Raise e => (failed e, st)
      | Ok _ =>
          if bool_decide (next_id st ≤ max_integer) then
            let drawn := mkStore (rows st) (next_id st + 1) in
            match insert_row db_todo with
            | Raise e => (failed e, drawn)
            | Ok r =>
                match rows st !! next_id st with
                | Some _ => (failed IntegrityError, drawn)
                | None =>
                    if fl Commit then (failed OperationalError, drawn)
                    else
                      let st' :=
                        mkStore (<[next_id st := r]> (rows st))
                          (next_id st + 1) in
                      if fl Refresh then (failed OperationalError, st')
                      else (mkResponse (Todo (load (next_id st) r)) 201, st')
                end
            end
          else (failed DataError, st)
      end
  end.
Proof.
  unfold view, create_todo_flask.
  rewrite run_try_except, run_bind. cbn [lift run].
  destruct (TodoItemCreate_init todo_data) as [c|e]; [|done].
  rewrite run_bind. cbn [lift run mbind result_bind].
  destruct (TodoItem_model_validate c) as [t|e] eqn:Ht; [|done].
  apply TodoItem_model_validate_row in Ht as [Hid _].
  rewrite run_bind, run_session_add_commit by done.
  destruct (fl Commit && negb (fl AtCommit)); [done|].
  destruct (adapt_insert t); [|done].
  case_bool_decide; [|done]. cbn zeta.
  destruct (insert_row t) as [r|e]; [|done].
  destruct (rows st !! next_id st) eqn:Hk; [done|].
  destruct (fl Commit); [done|].
  rewrite run_bind, run_session_refresh. destruct (fl Refresh); [done|].
  cbn [rows]. by rewrite lookup_insert_eq.
Qed.

Lemma view_update (fl : faults) (todo_id : Z) (todo_data : json) (st : store) :
  view (update_todo_flask fl todo_id todo_data) st =
  let failed e :=
    jsonify_detail (Failed "Failed to update todo: " e) 500 in
  if fl Get then (failed OperationalError, st)
  else match rows st !! todo_id with
  | None => (not_found, st)
  | Some r =>
      match TodoItemUpdate_init todo_data with
      | Raise e => (failed e, st)
      | Ok todo_update =>
          let todo := foldl setattr (load todo_id r)
                        (model_dump_exclude_unset todo_update) in
          if fl Commit then
            (failed (if fl AtCommit
                     then match flush_update r todo with
                          | Raise e => e
                          | Ok _ => OperationalError
                          end
                     else OperationalError), st)
          else match flush_update r todo with
               | Raise e => (failed e, st)
               | Ok r' =>
                   let st' := mkStore (<[todo_id := r']> (rows st)) (next_id st) in
                   if fl Refresh then (failed OperationalError, st')
                   else (mkResponse (Todo (load todo_id r')) 200, st')
               end
      end
  end.
Proof.
  unfold view, update_todo_flask.
  rewrite run_try_except, run_bind, run_session_get.
  destruct (fl Get); [done|].
  destruct (rows st !! todo_id) as [r|] eqn:Hr; [|done].
  cbn [fmap option_fmap option_map].
  rewrite run_bind. cbn [lift run].
  destruct (TodoItemUpdate_init todo_data) as [u|e]; [|done].
  rewrite run_bind, run_session_commit_dirty, Hr.
  destruct (fl Commit), (fl AtCommit); cbn [andb negb]; try done.
  - by destruct (flush_update r _).
  - destruct (flush_update r _) as [r'|e]; [|done].
    rewrite run_bind, run_session_refresh. destruct (fl Refresh); [done|].
    cbn [rows]. by rewrite lookup_insert_eq.
  - destruct (flush_update r _) as [r'|e]; [|done].
    rewrite run_bind, run_session_refresh. destruct (fl Refresh); [done|].
    cbn [rows]. by rewrite lookup_insert_eq.
Qed.

Lemma view_delete (fl : faults) (todo_id : Z) (st : store) :
  view (delete_todo_flask fl todo_id) st =
  let failed e :=
    jsonify_detail (Failed "Failed to delete todo: " e) 500 in
  if fl Get then (failed OperationalError, st)
  else match rows st !! todo_id with
  | None => (not_found, st)
  | Some _ =>
      if fl Commit then (failed OperationalError, st)
      else (mkResponse Empty 204,
            mkStore (delete todo_id (rows st)) (next_id st))
  end.
Proof.
  unfold view, delete_todo_flask.
  rewrite run_try_except, run_bind, run_session_get.
  destruct (fl Get); [done|].
  destruct (rows st !! todo_id) as [r|] eqn:Hr; [|done].
  cbn [fmap option_fmap option_map].
  rewrite run_bind, run_session_delete_commit.
  by destruct (fl Commit).
Qed.

(** An object as loaded is written back as the row it came from. *)
Lemma flush_update_load (k : Z) (r : row) : flush_update r (load k r) = Ok r.
Proof.
  destruct r. unfold flush_update, adapt_changed, load. cbn.
  by rewrite !bool_decide_eq_true_2.
Qed.

Lemma TodoItemUpdate_init_empty :
  TodoItemUpdate_init (JObj ∅) =
  Ok (TodoItemUpdate.mk None None None None None ∅).
Proof. reflexivity. Qed.

Lemma TodoItemUpdate_init_completed (v : json) :
  TodoItemUpdate_init (JObj {[ "completed" := v ]}) =
  (c ← Pydantic.optional Pydantic.validate_bool v;
   mret (TodoItemUpdate.mk None None c None None {[ "completed" ]})).
Proof.
  unfold TodoItemUpdate_init. cbn [Pydantic.kwargs mbind result_bind].
  rewrite !lookup_singleton_ne by done. rewrite lookup_singleton_eq.
  cbn [Pydantic.with_default].
  destruct (Pydantic.optional Pydantic.validate_bool v) as [c|e]; [|done].
  cbn. rewrite dom_singleton_L. do 2 f_equal.
Qed.

Lemma model_dump_completed (c : option bool) :
  model_dump_exclude_unset
    (TodoItemUpdate.mk None None c None None {[ "completed" ]}) =
  [completed_item c].
Proof. reflexivity. Qed.

(** ** Updating *)

(** Only [completed] was assigned: the statement sets that column. *)
Lemma flush_update_completed (k : Z) (r : row) (c : option bool) :
  flush_update r (setattr (load k r) (completed_item c)) =
  (b ← not_null c; mret (with_completed b r)).
Proof.
  destruct r. unfold flush_update, adapt_changed, load, with_completed. cbn.
  rewrite !bool_decide_eq_true_2 by done. by destruct c.
Qed.

(** C1: a PUT whose body holds only [completed], on a stored row.  When
    the value is accepted as the boolean [b] and the store answers, the
    response is 200 with the row where [completed] is [b] and nothing
    else has changed, and that row is the one stored.  Whatever the
    outcome, the stored [title], [description], [priority] and
    [due_date] of the row, its key, the other rows and the sequence are
    as before; and a response 200 always carries and stores that row. *)
Theorem update_only_completed (fl : faults) (st : store) (todo_id : Z)
    (r : row) (v : json) :
  rows st !! todo_id = Some r →
  let '(resp, st') :=
    view (update_todo_flask fl todo_id (JObj {[ "completed" := v ]})) st in
  (∀ b, Pydantic.optional Pydantic.validate_bool v = Ok (Some b) →
        fl Get = false → fl Commit = false → fl Refresh = false →
        resp = mkResponse (Todo (load todo_id (with_completed b r))) 200 ∧
        st' = mkStore (<[todo_id := with_completed b r]> (rows st)) (next_id st))
  ∧ (∃ r', rows st' !! todo_id = Some r' ∧
           row_title r' = row_title r ∧
           row_description r' = row_description r ∧
           row_priority r' = row_priority r ∧
           row_due_date r' = row_due_date r)
  ∧ (∀ k, k ≠ todo_id → rows st' !! k = rows st !! k)
  ∧ next_id st' = next_id st
  ∧ (status resp = 200 →
     ∃ b, Pydantic.optional Pydantic.validate_bool v = Ok (Some b) ∧
          content resp = Todo (load todo_id (with_completed b r)) ∧
          TodoItem.id (load todo_id (with_completed b r)) = Some todo_id ∧
          rows st' !! todo_id = Some (with_completed b r)).
Proof.
  intros Hr. rewrite view_update, Hr, TodoItemUpdate_init_completed.
  assert (∃ r', rows st !! todo_id = Some r' ∧ row_title r' = row_title r ∧
     row_description r' = row_description r ∧ row_priority r' = row_priority r ∧
     row_due_date r' = row_due_date r) as Hsame by (by exists r).
  destruct (fl Get) eqn:Hget; cbn zeta.
  { repeat split; by try done. }
  destruct (Pydantic.optional Pydantic.validate_bool v) as [c|e] eqn:Hv;
    cbn [mbind result_bind mret result_ret].
  2:{ repeat split; by try done. }
  rewrite model_dump_completed. cbn [foldl].
  rewrite flush_update_completed.
  destruct (fl Commit) eqn:Hcommit.
  { repeat split; by try done. }
  destruct c as [b|]; cbn [not_null mbind result_bind mret result_ret].
  2:{ repeat split; by try done. }
  assert (∀ k, k ≠ todo_id →
    <[todo_id := with_completed b r]> (rows st) !! k = rows st !! k) as Hother.
  { intros k Hk. by rewrite lookup_insert_ne. }
  destruct (fl Refresh) eqn:Hrefresh; cbn [rows next_id status content];
    rewrite lookup_insert_eq; repeat split; try done.
  all: try (by exists (with_completed b r)).
  all: try (by intros b' [= ->] _ _ _).
  all: try (by simplify_eq).
  intros _. by exists b.
Qed.

(** C2: a PUT with an empty body on a stored row returns 200 with the
    item as it was stored, and the store is the same before and after;
    the store is unchanged even when a statement fails. *)
Theorem update_empty_body_identity (st : store) (todo_id : Z) (r : row) :
  rows st !! todo_id = Some r →
  view (update_todo_flask no_faults todo_id (JObj ∅)) st =
    (mkResponse (Todo (load todo_id r)) 200, st)
  ∧ ∀ fl, snd (view (update_todo_flask fl todo_id (JObj ∅)) st) = st.
Proof.
  intros Hr. split; [|intros fl]; rewrite view_update, Hr,
    TodoItemUpdate_init_empty; cbn [foldl model_dump_exclude_unset];
    change (foldl setattr (load todo_id r) _) with (load todo_id r);
    rewrite flush_update_load, store_insert_id by done.
  - done.
  - by destruct (fl Get), (fl Commit), (fl Refresh).
Qed.

(** The row is looked up before the body is validated: for an id that
    matches no stored row the view function answers 404 with a detail
    whatever the decoded body is, and the store is left as it was. *)
Lemma update_unknown_id_not_found (fl : faults) (st : store) (todo_id : Z)
    (todo_data : json) :
  fl Get = false →
  rows st !! todo_id = None →
  view (update_todo_flask fl todo_id todo_data) st =
    (mkResponse (Detail (Literal "To-Do item not found")) 404, st).
Proof. intros Hget Hr. by rewrite view_update, Hget, Hr. Qed.

Lemma ensure_db_tables_exist_database (w : world) (a a' : app) :
  ensure_db_tables_exist w a = Ok a' →
  gemini_model a' = gemini_model a ∧ db_initialized a' = true
  ∧ database a' = database a.
Proof.
  unfold ensure_db_tables_exist.
  destruct (db_initialized a) eqn:Hinit; [by intros [= <-]|].
  destruct (db_faults w CreateAll); [done|]. by intros [= <-].
Qed.

(** C10, as the code has it: a PUT whose id matches no stored row reads
    [request.json] first.  When the body decodes, the answer is 404 with
    a detail whatever the decoded value is (an object that fails
    validation, or not an object at all), because the row is looked up
    before the body is validated.  When the body does not decode, the
    framework answers before the row is looked up: 415 when the content
    type is not JSON, 400 when the body does not parse.  The store is
    left as it was in every case. *)
Theorem put_unknown_id (w : world) (a a' : app) (todo_id : Z) (p : payload) :
  ensure_db_tables_exist w a = Ok a' →
  db_faults w Get = false →
  rows (database a) !! todo_id = None →
  serve w a (PUT_todos todo_id p) =
    (match p with
     | Decoded _ => mkResponse (Detail (Literal "To-Do item not found")) 404
     | Malformed => mkResponse (Html "Bad Request") 400
     | NotJson => mkResponse (Html "Unsupported Media Type") 415
     end, a', [])
  ∧ database a' = database a.
Proof.
  intros Hens Hget Hr. unfold serve. rewrite Hens.
  apply ensure_db_tables_exist_database in Hens as (_ & _ & Hdb).
  split; [|done]. rewrite <- Hdb in Hr.
  destruct p as [| |todo_data]; cbn; [done..|].
  rewrite update_unknown_id_not_found by done. by destruct a'.
Qed.

(** ** Creating *)




Lemma TodoItemCreate_init_title_of (todo_data : json) (c : TodoItemCreate.t) :
  TodoItemCreate_init todo_data = Ok c →
  title_of todo_data = Some (TodoItemCreate.title c).
Proof.
  unfold TodoItemCreate_init, title_of.
  destruct todo_data as [| | | | |l|m]; try done.
  cbn [Pydantic.kwargs mbind result_bind].
  destruct (m !! "title") as [[]|]; try done.
  cbn [Pydantic.required Pydantic.validate_str].
  repeat match goal with
  | |- context [Pydantic.with_default ?f ?d ?x] =>
      destruct (Pydantic.with_default f d x); [|done]
  end.
  by intros [= <-].
Qed.

Lemma TodoItem_model_validate_title (c : TodoItemCreate.t) (todo : TodoItem.t) :
  TodoItem_model_validate c = Ok todo →
  TodoItem.title todo = Some (TodoItemCreate.title c).
Proof.
  unfold TodoItem_model_validate.
  destruct (TodoItemCreate.priority c) as [s|]; cbn.
  - destruct (Pydantic.max_length 50 s); cbn; [|done]. by intros [= <-].
  - by intros [= <-].
Qed.

Lemma insert_row_title (todo : TodoItem.t) (r : row) :
  insert_row todo = Ok r → TodoItem.title todo = Some (row_title r).
Proof.
  unfold insert_row. destruct (varchar 50 _); [|done].
  destruct (TodoItem.title todo); [|done].
  destruct (TodoItem.completed todo); [|done]. by intros [= <-].
Qed.

(** C4, as the code has it: a POST is accepted (201) only when its body
    gives [title] as a text; the row created holds that very text, which
    may be empty.  A body that gives no text for [title] is answered
    400 with a detail and no row is created. *)
Theorem create_title_is_text (fl : faults) (st : store) (todo_data : json) :
  let '(resp, st') := view (create_todo_flask fl todo_data) st in
  (status resp = 201 →
   ∃ t todo r,
     title_of todo_data = Some t ∧
     content resp = Todo todo ∧
     TodoItem.title todo = Some t ∧
     TodoItem.id todo = Some (next_id st) ∧
     rows st !! next_id st = None ∧
     rows st' !! next_id st = Some r ∧
     row_title r = t)
  ∧ (title_of todo_data = None →
     status resp = 400 ∧
     (∃ e, content resp = Detail (Failed "Failed to create todo: " e)) ∧
     st' = st).
Proof.
  rewrite view_create. cbn zeta.
  destruct (TodoItemCreate_init todo_data) as [c|e] eqn:Hc;
    cbn [mbind result_bind].
  2:{ split; [done|]. intros _. repeat split; eauto. }
  pose proof (TodoItemCreate_init_title_of _ _ Hc) as Ht.
  destruct (TodoItem_model_validate c) as [todo|e] eqn:Hv.
  2:{ split; [done|]. by rewrite Ht. }
  destruct (fl Commit && negb (fl AtCommit)).
  { split; [done|]. by rewrite Ht. }
  destruct (adapt_insert todo).
  2:{ split; [done|]. by rewrite Ht. }
  case_bool_decide.
  2:{ split; [done|]. by rewrite Ht. }
  destruct (insert_row todo) as [r|e] eqn:Hflush.
  2:{ split; [done|]. by rewrite Ht. }
  destruct (rows st !! next_id st) eqn:Hfresh.
  { split; [done|]. by rewrite Ht. }
  destruct (fl Commit). { split; [done|]. by rewrite Ht. }
  apply TodoItem_model_validate_title in Hv.
  apply insert_row_title in Hflush.
  assert (row_title r = TodoItemCreate.title c) as Hr by congruence.
  destruct (fl Refresh); cbn [status content rows].
  { split; [done|]. by rewrite Ht. }
  split; [|by rewrite Ht]. intros _.
  exists (TodoItemCreate.title c), (load (next_id st) r), r.
  rewrite lookup_insert_eq. unfold load; cbn. by rewrite Hr.
Qed.

(** ** The cap on [priority] *)

(** The loop over the items of the update, attribute by attribute. *)
Lemma foldl_setattr_model_dump (todo : TodoItem.t) (u : TodoItemUpdate.t) :
  let pick {A : Type} (k : string) (new old : A) : A :=
    if bool_decide (k ∈ TodoItemUpdate.model_fields_set u) then new else old in
  foldl setattr todo (model_dump_exclude_unset u) =
  TodoItem.mk (TodoItem.id todo)
    (pick "title" (TodoItemUpdate.title u) (TodoItem.title todo))
    (pick "description" (TodoItemUpdate.description u) (TodoItem.description todo))
    (pick "completed" (TodoItemUpdate.completed u) (TodoItem.completed todo))
    (pick "priority" (TodoItemUpdate.priority u) (TodoItem.priority todo))
    (pick "due_date" (TodoItemUpdate.due_date u) (TodoItem.due_date todo)).
Proof.
  destruct todo. unfold model_dump_exclude_unset. cbn zeta.
  by repeat case_bool_decide.
Qed.

Lemma TodoItemUpdate_init_priority (todo_data : json) (u : TodoItemUpdate.t)
    (p : string) :
  TodoItemUpdate_init todo_data = Ok u →
  priority_of todo_data = Some p →
  TodoItemUpdate.priority u = Some p ∧
  "priority" ∈ TodoItemUpdate.model_fields_set u.
Proof.
  unfold TodoItemUpdate_init, priority_of.
  destruct todo_data as [| | | | |l|m]; try done.
  cbn [Pydantic.kwargs mbind result_bind].
  destruct (m !! "priority") as [[]|] eqn:Hp; try done.
  intros Hu [= ->].
  repeat (cbn [mbind result_bind] in Hu;
    match type of Hu with
    | context [Pydantic.with_default ?f ?d (m !! ?k)] =>
        destruct (Pydantic.with_default f d (m !! k)); [|done]
    end).
  cbn in Hu. injection Hu as <-. cbn. split; [done|].
  apply elem_of_intersection. split; [|set_solver].
  apply elem_of_dom. by rewrite Hp.
Qed.

Lemma TodoItemCreate_init_priority (todo_data : json) (c : TodoItemCreate.t)
    (p : string) :
  TodoItemCreate_init todo_data = Ok c →
  priority_of todo_data = Some p →
  TodoItemCreate.priority c = Some p.
Proof.
  unfold TodoItemCreate_init, priority_of.
  destruct todo_data as [| | | | |l|m]; try done.
  cbn [Pydantic.kwargs mbind result_bind].
  destruct (m !! "priority") as [[]|] eqn:Hp; try done.
  intros Hc [= ->].
  destruct (Pydantic.required _ _); [|done].
  repeat (cbn [mbind result_bind] in Hc;
    match type of Hc with
    | context [Pydantic.with_default ?f ?d (m !! ?k)] =>
        destruct (Pydantic.with_default f d (m !! k)); [|done]
    end).
  cbn in Hc. by injection Hc as <-.
Qed.

Lemma truncate_length (n : nat) (s s' : string) :
  truncate n s = Some s' → (String.length s' ≤ n)%nat.
Proof.
  revert n s'. induction s as [|a s IH]; intros n s'; cbn.
  - intros [= <-]. cbn. lia.
  - destruct n as [|n].
    + destruct (bool_decide (a = " "%char) && blank s); [|done].
      intros [= <-]. cbn. lia.
    + destruct (truncate n s) as [q|] eqn:Hq; [|done].
      intros [= <-]. cbn. apply IH in Hq. lia.
Qed.

Lemma truncate_fits (n : nat) (s : string) :
  (String.length s ≤ n)%nat → truncate n s = Some s.
Proof.
  revert n. induction s as [|a s IH]; intros n Hn; [done|].
  destruct n as [|n]; cbn in Hn; [lia|]. cbn. rewrite IH; [done|lia].
Qed.

Lemma varchar_capped (v v' : option string) :
  varchar 50 v = Ok v' → capped v'.
Proof.
  destruct v as [s|]; cbn.
  - destruct (truncate 50 s) as [q|] eqn:Hq; [|done].
    intros [= <-]. cbn. by eapply truncate_length.
  - by intros [= <-].
Qed.

(** What fits its column is none of the longer texts. *)
Lemma capped_not_longer (v : option string) (p : string) :
  capped v → (50 < String.length p)%nat → v ≠ Some p.
Proof. intros Hv Hlen ->. cbn in Hv. lia. Qed.

Lemma insert_row_capped (todo : TodoItem.t) (r : row) :
  insert_row todo = Ok r → capped (row_priority r).
Proof.
  unfold insert_row.
  destruct (varchar 50 _) as [p|] eqn:Hp; [|done]. apply varchar_capped in Hp.
  cbn. destruct (not_null (TodoItem.title todo)); [|done].
  cbn. destruct (not_null (TodoItem.completed todo)); [|done].
  by intros [= <-].
Qed.

(** An UPDATE that is executed, step by step. *)
Lemma flush_update_inv (r r' : row) (todo : TodoItem.t) :
  flush_update r todo = Ok r' →
  adapt_changed (TodoItem.title todo) (Some (row_title r)) = Ok ()
  ∧ adapt_changed (TodoItem.description todo) (row_description r) = Ok ()
  ∧ adapt_changed (TodoItem.priority todo) (row_priority r) = Ok ()
  ∧ (if bool_decide (TodoItem.priority todo = row_priority r)
     then Ok (row_priority r)
     else varchar 50 (TodoItem.priority todo)) = Ok (row_priority r')
  ∧ TodoItem.title todo = Some (row_title r')
  ∧ TodoItem.description todo = row_description r'
  ∧ TodoItem.completed todo = Some (row_completed r')
  ∧ TodoItem.due_date todo = row_due_date r'.
Proof.
  unfold flush_update.
  destruct (adapt_changed (TodoItem.title todo) _) as [[]|]; [|done].
  destruct (adapt_changed (TodoItem.description todo) _) as [[]|]; [|done].
  destruct (adapt_changed (TodoItem.priority todo) _) as [[]|]; [|done].
  cbn [mbind result_bind].
  destruct (if bool_decide _ then _ else _) as [p|]; [|done].
  cbn [mbind result_bind].
  destruct (TodoItem.title todo); [|done].
  destruct (TodoItem.completed todo); [|done].
  cbn. by intros [= <-].
Qed.

(** The priority an UPDATE leaves: the stored one when the attribute is
    the loaded value, and else what the column makes of the attribute. *)
Lemma flush_update_priority (r r' : row) (todo : TodoItem.t) :
  flush_update r todo = Ok r' →
  (TodoItem.priority todo = row_priority r ∧ row_priority r' = row_priority r)
  ∨ (TodoItem.priority todo ≠ row_priority r ∧
     varchar 50 (TodoItem.priority todo) = Ok (row_priority r')).
Proof.
  intros (_ & _ & _ & Hp & _)%flush_update_inv.
  case_bool_decide as Hsame.
  - left. split; [done|]. by injection Hp.
  - by right.
Qed.

Lemma flush_update_capped (r r' : row) (todo : TodoItem.t) :
  capped (row_priority r) → flush_update r todo = Ok r' →
  capped (row_priority r').
Proof.
  intros Hr [[_ ->]|[_ Hp%varchar_capped]]%flush_update_priority; done.
Qed.

Lemma priorities_capped_insert (st : store) (k : Z) (r : row) (n : Z) :
  priorities_capped st → capped (row_priority r) →
  priorities_capped (mkStore (<[k := r]> (rows st)) n).
Proof. intros Hst Hr. by apply map_Forall_insert_2. Qed.

Lemma priorities_capped_not_longer (st : store) (p : string) :
  priorities_capped st → (50 < String.length p)%nat →
  ∀ k r, rows st !! k = Some r → row_priority r ≠ Some p.
Proof.
  intros Hst Hlen k r Hr%Hst. by apply capped_not_longer.
Qed.

Lemma create_priority_capped (fl : faults) (st : store) (todo_data : json) :
  priorities_capped st →
  let '(resp, st') := view (create_todo_flask fl todo_data) st in
  priorities_capped st' ∧
  (∀ todo, content resp = Todo todo → capped (TodoItem.priority todo)) ∧
  (∀ p, priority_of todo_data = Some p → (50 < String.length p)%nat →
        status resp = 400 ∧ st' = st).
Proof.
  intros Hst. rewrite view_create. cbn zeta.
  destruct (TodoItemCreate_init todo_data) as [c|e] eqn:Hc;
    cbn [mbind result_bind]; [|done].
  destruct (TodoItem_model_validate c) as [todo|e] eqn:Hv; [|done].
  assert (∀ p, priority_of todo_data = Some p → (50 < String.length p)%nat →
    False) as Hshort.
  { intros p Hp Hlen. apply (TodoItemCreate_init_priority _ _ _ Hc) in Hp.
    unfold TodoItem_model_validate in Hv. rewrite Hp in Hv.
    unfold Pydantic.max_length in Hv.
    destruct (Nat.leb (String.length p) 50) eqn:Hle; [|done].
    apply Nat.leb_le in Hle. lia. }
  assert (priorities_capped (mkStore (rows st) (next_id st + 1))) as Hdrawn
    by done.
  destruct (fl Commit && negb (fl AtCommit)).
  { repeat split; try done. all: intros; exfalso; eauto. }
  destruct (adapt_insert todo).
  2:{ repeat split; try done. all: intros; exfalso; eauto. }
  case_bool_decide.
  2:{ repeat split; try done. all: intros; exfalso; eauto. }
  destruct (insert_row todo) as [r|e] eqn:Hflush.
  2:{ repeat split; try done. all: intros; exfalso; eauto. }
  apply insert_row_capped in Hflush.
  destruct (rows st !! next_id st).
  { repeat split; try done. all: intros; exfalso; eauto. }
  destruct (fl Commit).
  { repeat split; try done. all: intros; exfalso; eauto. }
  destruct (fl Refresh); cbn [content status].
  - split; [by apply priorities_capped_insert|].
    split; [done|]. intros; exfalso; eauto.
  - split; [by apply priorities_capped_insert|].
    split; [by intros ? [= <-]|]. intros; exfalso; eauto.
Qed.

Lemma update_priority_capped (fl : faults) (st : store) (todo_id : Z)
    (todo_data : json) :
  priorities_capped st →
  let '(resp, st') := view (update_todo_flask fl todo_id todo_data) st in
  priorities_capped st' ∧
  (∀ todo, content resp = Todo todo → capped (TodoItem.priority todo)) ∧
  (∀ p, priority_of todo_data = Some p → (50 < String.length p)%nat →
        (truncate 50 p = None →
         (status resp = 404 ∨ status resp = 500) ∧ st' = st)
        ∧ (st' = st ∨
           ∃ q r', truncate 50 p = Some q ∧
                   rows st' !! todo_id = Some r' ∧
                   row_priority r' = Some q)).
Proof.
  intros Hst. rewrite view_update. cbn zeta.
  destruct (fl Get). { repeat split; try done. all: first [by right | by left]. }
  destruct (rows st !! todo_id) as [r|] eqn:Hr.
  2:{ repeat split; try done. all: first [by right | by left]. }
  assert (capped (row_priority r)) as Hcap by by apply Hst in Hr.
  destruct (TodoItemUpdate_init todo_data) as [u|e] eqn:Hu.
  2:{ repeat split; try done. all: first [by right | by left]. }
  destruct (fl Commit). { repeat split; try done. all: first [by right | by left]. }
  destruct (flush_update r _) as [r'|e] eqn:Hflush.
  2:{ repeat split; try done. all: first [by right | by left]. }
  assert (∀ p, priority_of todo_data = Some p → (50 < String.length p)%nat →
    ∃ q, truncate 50 p = Some q ∧ row_priority r' = Some q) as Hcut.
  { intros p Hp Hlen.
    destruct (TodoItemUpdate_init_priority _ _ _ Hu Hp) as [Hup Hset].
    assert (TodoItem.priority (foldl setattr (load todo_id r)
              (model_dump_exclude_unset u)) = Some p) as Hprio.
    { rewrite foldl_setattr_model_dump. cbn.
      by rewrite bool_decide_eq_true_2. }
    apply flush_update_priority in Hflush as [[Hsame _]|[_ Hcol]].
    - rewrite Hprio in Hsame. rewrite <- Hsame in Hcap. cbn in Hcap. lia.
    - rewrite Hprio in Hcol. cbn in Hcol.
      destruct (truncate 50 p) as [q|]; [|done].
      exists q. split; [done|]. by injection Hcol. }
  apply flush_update_capped in Hflush; [|done].
  assert (∀ p, priority_of todo_data = Some p → (50 < String.length p)%nat →
    (truncate 50 p = None → False)
    ∧ ∃ q r0, truncate 50 p = Some q ∧
              <[todo_id := r']> (rows st) !! todo_id = Some r0 ∧
              row_priority r0 = Some q) as Hdone.
  { intros p Hp Hlen. destruct (Hcut p Hp Hlen) as (q & Hq & Hr').
    split; [by rewrite Hq|]. exists q, r'. by rewrite lookup_insert_eq. }
  destruct (fl Refresh); cbn [content status rows].
  - split; [by apply priorities_capped_insert|].
    split; [done|]. intros p Hp Hlen. destruct (Hdone p Hp Hlen) as [Hno Hq].
    split; [by intros ?%Hno|by right].
  - split; [by apply priorities_capped_insert|].
    split; [by intros ? [= <-]|].
    intros p Hp Hlen. destruct (Hdone p Hp Hlen) as [Hno Hq].
    split; [by intros ?%Hno|by right].
Qed.

(** C5: when every stored [priority] is null or a text of at most 50
    characters, the same holds after a create or an update, and of every
    item these endpoints return.  So a request that supplies a longer
    [priority] leaves no stored row and returns no item with that value.
    The create refuses it (400, the store as it was).  The update is
    refused by the column unless what is beyond the 50 characters is
    spaces only (404 or 500, the store as it was); when it is spaces
    only, what the update may store is the first 50 characters. *)
Theorem priority_at_most_50 (fl : faults) (st : store) (todo_id : Z)
    (todo_data : json) :
  priorities_capped st →
  (let '(resp, st') := view (create_todo_flask fl todo_data) st in
   priorities_capped st' ∧
   (∀ todo, content resp = Todo todo → capped (TodoItem.priority todo)) ∧
   (∀ p, priority_of todo_data = Some p → (50 < String.length p)%nat →
         status resp = 400 ∧ st' = st
         ∧ (∀ k r, rows st' !! k = Some r → row_priority r ≠ Some p)))
  ∧
  (let '(resp, st') := view (update_todo_flask fl todo_id todo_data) st in
   priorities_capped st' ∧
   (∀ todo, content resp = Todo todo → capped (TodoItem.priority todo)) ∧
   (∀ p, priority_of todo_data = Some p → (50 < String.length p)%nat →
         (∀ k r, rows st' !! k = Some r → row_priority r ≠ Some p)
         ∧ (∀ todo, content resp = Todo todo →
                    TodoItem.priority todo ≠ Some p)
         ∧ (truncate 50 p = None →
            (status resp = 404 ∨ status resp = 500) ∧ st' = st)
         ∧ (st' = st ∨
            ∃ q r', truncate 50 p = Some q ∧
                    rows st' !! todo_id = Some r' ∧
                    row_priority r' = Some q))).
Proof.
  intros Hst. split.
  - pose proof (create_priority_capped fl st todo_data Hst) as Hc.
    destruct (view _ _) as [resp st']. destruct Hc as (Hst' & Hresp & Hlong).
    split; [done|]. split; [done|]. intros p Hp Hlen.
    destruct (Hlong p Hp Hlen) as [Hs ->]. split; [done|]. split; [done|].
    by apply priorities_capped_not_longer.
  - pose proof (update_priority_capped fl st todo_id todo_data Hst) as Hu.
    destruct (view _ _) as [resp st']. destruct Hu as (Hst' & Hresp & Hlong).
    split; [done|]. split; [done|]. intros p Hp Hlen.
    split; [by apply priorities_capped_not_longer|].
    split; [|by apply Hlong].
    intros todo Htodo%Hresp. by apply capped_not_longer.
Qed.

(** ** Failures *)


(** C7, as the code has it: a body that fails validation against the
    request model is answered 400 with a detail by the create endpoint,
    500 with a detail by the update endpoint when the id is that of a
    stored row, and 500 with a detail by the translation endpoint when
    its backend is configured; the store is left as it was and no prompt
    is sent. *)
Theorem validation_failure_status (fl : faults) (st : store) (todo_id : Z)
    (r : row) (data : json) (e : exn) :
  (TodoItemCreate_init data ≫= TodoItem_model_validate = Raise e →
   view (create_todo_flask fl data) st =
   (mkResponse (Detail (Failed "Failed to create todo: " e)) 400, st))
  ∧ (fl Get = false → rows st !! todo_id = Some r →
     TodoItemUpdate_init data = Raise e →
     view (update_todo_flask fl todo_id data) st =
     (mkResponse (Detail (Failed "Failed to update todo: " e)) 500, st))
  ∧ (∀ model w, TranslationRequest_init data = Raise e →
     translate_text_flask (Some model) w data =
     (mkResponse (Detail (Failed "Failed to translate text: " e)) 500, [])).
Proof.
  repeat split.
  - intros Hc. by rewrite view_create, Hc.
  - intros Hget Hr Hu. by rewrite view_update, Hget, Hr, Hu.
  - intros model w Ht. unfold translate_text_flask. by rewrite Ht.
Qed.

(** ** What a request writes *)

Lemma view_get_all_store (fl : faults) (st : store) :
  snd (view (get_all_todos_flask fl) st) = st.
Proof.
  unfold view, get_all_todos_flask, session_select_all.
  rewrite !run_bind, run_execute. by destruct (fl Select).
Qed.

Lemma view_create_writes (fl : faults) (st : store) (todo_data : json) :
  writes st (snd (view (create_todo_flask fl todo_data) st)).
Proof.
  rewrite view_create. cbn zeta.
  destruct (_ ≫= _) as [todo|]; [|constructor].
  destruct (fl Commit && negb (fl AtCommit)); [constructor|].
  destruct (adapt_insert todo); [|constructor].
  case_bool_decide; [|constructor].
  destruct (insert_row todo) as [r|] eqn:Hflush; [|constructor].
  apply insert_row_capped in Hflush.
  destruct (rows st !! next_id st) eqn:Hfresh; [constructor|].
  destruct (fl Commit); [constructor|].
  destruct (fl Refresh); by constructor.
Qed.

Lemma view_update_writes (fl : faults) (st : store) (todo_id : Z)
    (todo_data : json) :
  writes st (snd (view (update_todo_flask fl todo_id todo_data) st)).
Proof.
  rewrite view_update. cbn zeta.
  destruct (fl Get); [constructor|].
  destruct (rows st !! todo_id) as [r|] eqn:Hr; [|constructor].
  destruct (TodoItemUpdate_init todo_data) as [u|]; [|constructor].
  destruct (fl Commit); [constructor|].
  destruct (flush_update r _) as [r'|] eqn:Hflush; [|constructor].
  assert (capped (row_priority r) → capped (row_priority r')) as Hcap.
  { intros Hcap. by eapply flush_update_capped. }
  destruct (fl Refresh); by econstructor.
Qed.

Lemma view_delete_writes (fl : faults) (st : store) (todo_id : Z) :
  writes st (snd (view (delete_todo_flask fl todo_id) st)).
Proof.
  rewrite view_delete. cbn zeta.
  destruct (fl Get); [constructor|].
  destruct (rows st !! todo_id); [|constructor].
  destruct (fl Commit); constructor.
Qed.

Lemma dispatch_writes (w : world) (a : app) (rq : request) :
  writes (database a) (database (dispatch w a rq).1.2).
Proof.
  destruct rq as [| |p|todo_id p|todo_id|p]; cbn; try constructor.
  - pose proof (view_get_all_store (db_faults w) (database a)) as Hst.
    destruct (view _ _) as [resp st']. cbn in *. subst. constructor.
  - destruct p as [| |todo_data]; cbn; try constructor.
    pose proof (view_create_writes (db_faults w) (database a) todo_data).
    by destruct (view _ _) as [resp st'].
  - destruct p as [| |todo_data]; cbn; try constructor.
    pose proof (view_update_writes (db_faults w) (database a) todo_id
                  todo_data).
    by destruct (view _ _) as [resp st'].
  - pose proof (view_delete_writes (db_faults w) (database a) todo_id).
    by destruct (view _ _) as [resp st'].
  - destruct (gemini_model a); [|constructor].
    destruct p as [| |request_data]; cbn -[translate_text_flask];
      try constructor.
    destruct (translate_text_flask _ _ _). constructor.
Qed.

Lemma serve_writes (w : world) (a : app) (rq : request) :
  writes (database a) (database (serve w a rq).1.2).
Proof.
  unfold serve, ensure_db_tables_exist.
  destruct (db_initialized a); [apply dispatch_writes|].
  destruct (db_faults w CreateAll); [constructor|].
  apply (dispatch_writes w (mkApp _ _ _)).
Qed.

(** What every write preserves holds after any run of requests. *)
Lemma serve_all_invariant (P : store → Prop) (a : app)
    (rqs : list (world * request)) :
  (∀ st st', writes st st' → P st → P st') →
  P (database a) → P (database (serve_all a rqs).1.2).
Proof.
  intros Hstep. revert a.
  induction rqs as [|[w rq] rest IH]; intros a Ha; [done|].
  cbn [serve_all].
  pose proof (Hstep _ _ (serve_writes w a rq) Ha) as Ha'.
  destruct (serve w a rq) as [[r a'] prompts]. cbn in Ha'.
  specialize (IH a' Ha').
  by destruct (serve_all a' rest) as [[rs a''] prompts'].
Qed.

Lemma writes_sequence_ahead (st st' : store) :
  writes st st' → sequence_ahead st → sequence_ahead st'.
Proof.
  intros Hw Hseq. destruct Hw as [| |r Hfresh _|k r r' Hr _|k]; [done|..].
  - intros k' r' Hr'. apply Hseq in Hr'. cbn in *. lia.
  - apply map_Forall_insert_2; cbn; [lia|].
    intros k' r' Hr'. apply Hseq in Hr'. cbn in *. lia.
  - apply map_Forall_insert_2; [|done]. by apply Hseq in Hr.
  - by apply map_Forall_delete.
Qed.

Lemma writes_priorities_capped (st st' : store) :
  writes st st' → priorities_capped st → priorities_capped st'.
Proof.
  intros Hw Hcap. destruct Hw as [| |r _ Hr|k r r' Hr Hr'|k]; [done|done|..].
  - by apply map_Forall_insert_2.
  - apply map_Forall_insert_2; [|done]. apply Hr'. by apply Hcap in Hr.
  - by apply map_Forall_delete.
Qed.


(** The invariants of the store hold of an empty table and after any run
    of requests from a store where they hold. *)
Lemma store_invariants_empty (n : Z) :
  sequence_ahead (mkStore ∅ n) ∧ priorities_capped (mkStore ∅ n).
Proof. split; apply map_Forall_empty. Qed.

Lemma serve_all_store_invariants (a : app) (rqs : list (world * request)) :
  sequence_ahead (database a) ∧ priorities_capped (database a) →
  sequence_ahead (database (serve_all a rqs).1.2) ∧
  priorities_capped (database (serve_all a rqs).1.2).
Proof.
  intros [Hseq Hcap]. split.
  - apply serve_all_invariant; [apply writes_sequence_ahead|done].
  - apply serve_all_invariant; [apply writes_priorities_capped|done].
Qed.

(** ** Deleting *)


(** ** Translating *)

Lemma configure_gemini_absent (key : option string) (genai_raises : bool) :
  key = None ∨ key = Some "" → configure_gemini key genai_raises = None.
Proof. by intros [-> | ->]. Qed.

Lemma dispatch_gemini_model (w : world) (a : app) (rq : request) :
  gemini_model (dispatch w a rq).1.2 = gemini_model a.
Proof.
  destruct rq as [| |p|todo_id p|todo_id|p]; cbn; try done.
  - by destruct (view _ _).
  - destruct p; cbn; try done. by destruct (view _ _).
  - destruct p; cbn; try done. by destruct (view _ _).
  - by destruct (view _ _).
  - destruct (gemini_model a) eqn:Hm; [|done].
    destruct p; cbn -[translate_text_flask]; try done.
    by destruct (translate_text_flask _ _ _).
Qed.

Lemma dispatch_no_prompt (w : world) (a : app) (rq : request) :
  gemini_model a = None → (dispatch w a rq).2 = [].
Proof.
  intros Hm. destruct rq as [| |p|todo_id p|todo_id|p]; cbn; try done.
  - by destruct (view _ _).
  - destruct p; cbn; try done. by destruct (view _ _).
  - destruct p; cbn; try done. by destruct (view _ _).
  - by destruct (view _ _).
  - by rewrite Hm.
Qed.

(** Without a model, a run of requests leaves the process without one,
    sends no prompt, and answers 503 to every translation request whose
    table setup did not fail before the view function was reached. *)
Lemma serve_all_without_model (a : app) (rqs : list (world * request)) :
  gemini_model a = None →
  gemini_model (serve_all a rqs).1.2 = None
  ∧ (serve_all a rqs).2 = []
  ∧ ∀ i w request_data,
      rqs !! i = Some (w, POST_translate request_data) →
      db_faults w CreateAll = false →
      (serve_all a rqs).1.1 !! i = Some unavailable.
Proof.
  revert a. induction rqs as [|[w rq] rest IH]; intros a Hm; [done|].
  cbn [serve_all].
  assert (gemini_model (serve w a rq).1.2 = None ∧ (serve w a rq).2 = []
    ∧ ∀ request_data, rq = POST_translate request_data →
        db_faults w CreateAll = false → (serve w a rq).1.1 = unavailable)
    as (Hm' & Hp & Hr).
  { unfold serve, ensure_db_tables_exist.
    destruct (db_initialized a).
    - rewrite dispatch_gemini_model, dispatch_no_prompt by done.
      repeat split; try done. intros d -> _. cbn. by rewrite Hm.
    - destruct (db_faults w CreateAll).
      + repeat split; try done.
      + rewrite dispatch_gemini_model, dispatch_no_prompt by done.
        repeat split; try done. intros d -> _. cbn. by rewrite Hm. }
  destruct (serve w a rq) as [[r a'] prompts]. cbn in Hm', Hp, Hr.
  destruct (IH a' Hm') as (IHm & IHp & IHr).
  destruct (serve_all a' rest) as [[rs a''] prompts']. cbn in *.
  subst. repeat split; try done.
  intros [|i] w' d Hi Hw; cbn in *.
  - injection Hi as -> ->. f_equal. by eapply Hr.
  - by eapply IHr.
Qed.

(** C9: when the credential of the translation backend is absent (unset
    or empty) as the process starts, the process has no model; the
    translation endpoint then answers 503 with a detail whatever the
    body is and sends no prompt to the backend; and however many
    requests are served, the process stays without a model, no prompt is
    ever sent, and every translation request served is answered 503. *)
Theorem translate_unavailable_without_credential
    (environ : gmap string string) (genai_raises : bool) (st : store)
    (a : app) :
  environ !! "GOOGLE_API_KEY" = None ∨ environ !! "GOOGLE_API_KEY" = Some "" →
  startup environ genai_raises st = Some a →
  gemini_model a = None
  ∧ (∀ w request_data,
       translate_text_flask (gemini_model a) w request_data =
       (mkResponse
          (Detail (Literal
             "Translation service not available. API key might be missing or invalid."))
          503, []))
  ∧ (∀ rqs,
       gemini_model (serve_all a rqs).1.2 = None
       ∧ (serve_all a rqs).2 = []
       ∧ ∀ i w request_data,
           rqs !! i = Some (w, POST_translate request_data) →
           db_faults w CreateAll = false →
           (serve_all a rqs).1.1 !! i =
           Some (mkResponse
             (Detail (Literal
                "Translation service not available. API key might be missing or invalid."))
             503)).
Proof.
  intros Hkey Hstart.
  assert (gemini_model a = None) as Hm.
  { unfold startup in Hstart. rewrite configure_gemini_absent in Hstart by done.
    destruct (environ !! "DATABASE_URL") as [url|]; [|done].
    case_bool_decide; [done|]. by injection Hstart as <-. }
  split; [done|]. split.
  - intros w d. by rewrite Hm.
  - intros rqs. by apply serve_all_without_model.
Qed.

End Properties.

(** * The properties on examples *)

(** Marking the only item as completed. *)
Lemma update_only_completed_example :
  rows one_todo !! 1 = Some milk ∧
  view (update_todo_flask no_faults 1 (JObj {[ "completed" := JBool true ]}))
    one_todo =
  (mkResponse (Todo (load 1 (with_completed true milk))) 200,
   mkStore {[ 1 := with_completed true milk ]} 2).
Proof.
  split; [reflexivity|].
  pose proof (update_only_completed no_faults one_todo 1 milk (JBool true)
                eq_refl) as Hc.
  destruct (view _ _) as [resp st'].
  destruct Hc as [Hc _].
  destruct (Hc true eq_refl eq_refl eq_refl eq_refl) as [-> ->].
  reflexivity.
Defined.

(** An empty update of the only item. *)
Lemma update_empty_body_example :
  rows one_todo !! 1 = Some milk ∧
  view (update_todo_flask no_faults 1 (JObj ∅)) one_todo =
  (mkResponse (Todo (load 1 milk)) 200, one_todo).
Proof.
  split; [reflexivity|].
  exact (proj1 (update_empty_body_identity one_todo 1 milk eq_refl)).
Defined.

Lemma sequence_ahead_one_todo : sequence_ahead one_todo.
Proof. apply map_Forall_singleton. reflexivity. Defined.



(** An empty title is accepted, and stored. *)
Lemma create_empty_title_accepted :
  view (create_todo_flask no_faults (JObj {[ "title" := JStr "" ]})) no_todo =
  (mkResponse
     (Todo (TodoItem.mk (Some 1) (Some "") None (Some false) None None)) 201,
   mkStore {[ 1 := mkRow "" None false None None ]} 2).
Proof. reflexivity. Qed.

(** A number for a title is refused, and nothing is stored. *)
Lemma create_title_is_text_example :
  title_of (JObj {[ "title" := JInt 7 ]}) = None ∧
  status (view (create_todo_flask no_faults (JObj {[ "title" := JInt 7 ]}))
            no_todo).1 = 400 ∧
  (view (create_todo_flask no_faults (JObj {[ "title" := JInt 7 ]}))
     no_todo).2 = no_todo.
Proof.
  split; [reflexivity|].
  pose proof (create_title_is_text no_faults no_todo
                (JObj {[ "title" := JInt 7 ]})) as Hc.
  destruct (view _ _) as [resp st'].
  destruct Hc as [_ Hc]. destruct (Hc eq_refl) as (Hs & _ & Hst).
  split; assumption.
Defined.

Lemma priorities_capped_one_todo : priorities_capped one_todo.
Proof. apply map_Forall_singleton. exact I. Defined.

(** A priority of 51 characters is refused by both endpoints. *)
Lemma priority_at_most_50_example :
  priorities_capped one_todo ∧
  status (view (create_todo_flask no_faults
            (JObj {[ "title" := JStr "Walk"; "priority" := JStr too_long ]}))
            one_todo).1 = 400 ∧
  (view (update_todo_flask no_faults 1
           (JObj {[ "title" := JStr "Walk"; "priority" := JStr too_long ]}))
     one_todo).2 = one_todo.
Proof.
  split; [exact priorities_capped_one_todo|].
  pose proof (priority_at_most_50 no_faults one_todo 1
    (JObj {[ "title" := JStr "Walk"; "priority" := JStr too_long ]})
    priorities_capped_one_todo) as [Hc Hu].
  split.
  - destruct (view (create_todo_flask _ _) _) as [resp st'].
    destruct Hc as (_ & _ & Hc).
    destruct (Hc too_long eq_refl) as [Hs _]; [cbn; lia|exact Hs].
  - destruct (view (update_todo_flask _ _ _) _) as [resp st'].
    destruct Hu as (_ & _ & Hu).
    destruct (Hu too_long eq_refl) as (_ & _ & Hst & _); [cbn; lia|].
    exact (proj2 (Hst eq_refl)).
Defined.


(** A priority of 50 characters and a space is accepted by the update,
    and the column holds the 50 characters. *)
Lemma update_padded_priority_is_cut :
  view (update_todo_flask no_faults 1 (JObj {[ "priority" := JStr padded ]}))
    one_todo =
  (mkResponse
     (Todo (load 1 (mkRow "Buy milk" None false (Some fifty) None))) 200,
   mkStore {[ 1 := mkRow "Buy milk" None false (Some fifty) None ]} 2).
Proof. reflexivity. Qed.

(** A create whose COMMIT fails stores no row and has drawn a number
    from the sequence. *)
Lemma create_commit_fails_late :
  view (create_todo_flask commit_fails_late
          (JObj {[ "title" := JStr "Walk" ]})) one_todo =
  (mkResponse (Detail (Failed "Failed to create todo: " OperationalError)) 400,
   mkStore {[ 1 := milk ]} 3).
Proof. reflexivity. Qed.


(** A body that fails validation: 500 from the update of a stored item,
    400 from the create. *)
Lemma validation_failure_status_example :
  TodoItemUpdate_init (JObj {[ "completed" := JStr "maybe" ]}) =
    Raise ValidationError ∧
  view (update_todo_flask no_faults 1 (JObj {[ "completed" := JStr "maybe" ]}))
    one_todo =
  (mkResponse (Detail (Failed "Failed to update todo: " ValidationError)) 500,
   one_todo) ∧
  view (create_todo_flask no_faults (JObj {[ "title" := JInt 7 ]})) one_todo =
  (mkResponse (Detail (Failed "Failed to create todo: " ValidationError)) 400,
   one_todo).
Proof.
  split; [reflexivity|]. split.
  - destruct (validation_failure_status no_faults one_todo 1 milk
                (JObj {[ "completed" := JStr "maybe" ]}) ValidationError)
      as (_ & Hu & _).
    exact (Hu eq_refl eq_refl eq_refl).
  - destruct (validation_failure_status no_faults one_todo 1 milk
                (JObj {[ "title" := JInt 7 ]}) ValidationError)
      as (Hc & _ & _).
    exact (Hc eq_refl).
Defined.

(** A PUT of a stored item with a [completed] that is no boolean is
    answered 500. *)
Lemma update_malformed_body_is_500 :
  view (update_todo_flask no_faults 1 (JObj {[ "completed" := JStr "maybe" ]}))
    one_todo =
  (mkResponse (Detail (Failed "Failed to update todo: " ValidationError)) 500,
   one_todo).
Proof. reflexivity. Qed.


(** A process started without the credential, asked to translate. *)
Lemma translate_unavailable_example :
  database_only !! "GOOGLE_API_KEY" = None ∧
  startup database_only false no_todo = Some (mkApp None false no_todo) ∧
  (serve_all (mkApp None false no_todo)
     [(echo, POST_translate
               (JObj {[ "text" := JStr "hello";
                        "target_language" := JStr "French" ]}))]).1.1 !! 0%nat =
  Some (mkResponse
          (Detail (Literal
             "Translation service not available. API key might be missing or invalid."))
          503).
Proof.
  split; [reflexivity|]. split; [reflexivity|].
  destruct (translate_unavailable_without_credential database_only false
              no_todo (mkApp None false no_todo) (or_introl eq_refl) eq_refl)
    as (_ & _ & Hrun).
  destruct (Hrun [(echo, POST_translate
               (JObj {[ "text" := JStr "hello";
                        "target_language" := JStr "French" ]}))])
    as (_ & _ & Hresp).
  exact (Hresp 0%nat echo _ eq_refl eq_refl).
Defined.

(** A PUT of an id that no row has, with a body that is no object. *)
Lemma put_unknown_id_example :
  ensure_db_tables_exist echo (mkApp None true one_todo) =
    Ok (mkApp None true one_todo) ∧
  db_faults echo Get = false ∧ rows one_todo !! 7 = None ∧
  serve echo (mkApp None true one_todo) (PUT_todos 7 (JArr [])) =
  (mkResponse (Detail (Literal "To-Do item not found")) 404,
   mkApp None true one_todo, []).
Proof.
  do 3 (split; [reflexivity|]).
  exact (proj1 (put_unknown_id echo (mkApp None true one_todo)
                  (mkApp None true one_todo) 7 (JArr [])
                  eq_refl eq_refl eq_refl)).
Defined.

(** A PUT of an id that no row has, with a body that does not parse, is
    answered 400 by the framework. *)
Lemma put_unknown_id_malformed_is_400 :
  serve echo (mkApp None true one_todo) (PUT_todos 7 Malformed) =
  (mkResponse (Html "Bad Request") 400, mkApp None true one_todo, []).
Proof. reflexivity. Qed.

(** * Further properties of the view functions *)

Section Endpoints.

Context {dates : DateValidator}.

(** ** Listing *)

Lemma view_get_all (fl : faults) (st : store) :
  view (get_all_todos_flask fl) st =
  if fl Select then (internal_server_error, st)
  else (mkResponse (Todos (uncurry load <$> map_to_list (rows st))) 200, st).
Proof.
  unfold view, get_all_todos_flask, session_select_all.
  rewrite !run_bind, run_execute. by destruct (fl Select).
Qed.

Lemma load_inj (k k' : Z) (r r' : row) :
  load k r = load k' r' → k = k' ∧ r = r'.
Proof. destruct r, r'. unfold load. cbn. by intros [= -> -> -> -> -> ->]. Qed.

Lemma elem_of_loaded (m : gmap Z row) (k : Z) (r : row) :
  load k r ∈ uncurry load <$> map_to_list m ↔ m !! k = Some r.
Proof.
  rewrite list_elem_of_fmap. split.
  - intros ([k' r'] & Heq & Hin). cbn in Heq.
    apply load_inj in Heq as [-> ->]. by apply elem_of_map_to_list.
  - intros Hr. exists (k, r). split; [done|]. by apply elem_of_map_to_list.
Qed.

Lemma elem_of_loaded_inv (m : gmap Z row) (todo : TodoItem.t) :
  todo ∈ uncurry load <$> map_to_list m →
  ∃ k r, todo = load k r ∧ m !! k = Some r.
Proof.
  rewrite list_elem_of_fmap. intros ([k r] & -> & Hin).
  exists k, r. split; [done|]. by apply elem_of_map_to_list.
Qed.

(** X1: listing never writes.  When the store answers, the response is
    200 with one item for each stored row and no other: the item of the
    row, under the id that is its key; no two items share an id.  When
    the select fails, nothing catches the exception: the answer is the
    framework's 500 page, not a JSON detail. *)
Theorem list_is_the_table (fl : faults) (st : store) :
  let '(resp, st') := view (get_all_todos_flask fl) st in
  st' = st
  ∧ (fl Select = true → resp = internal_server_error)
  ∧ (fl Select = false →
     ∃ todos,
       resp = mkResponse (Todos todos) 200
       ∧ (∀ k r, load k r ∈ todos ↔ rows st !! k = Some r)
       ∧ (∀ todo, todo ∈ todos →
                  ∃ k r, todo = load k r ∧ rows st !! k = Some r)
       ∧ length todos = size (rows st)
       ∧ NoDup (TodoItem.id <$> todos)).
Proof.
  rewrite view_get_all. destruct (fl Select); [done|].
  split; [done|]. split; [done|]. intros _.
  exists (uncurry load <$> map_to_list (rows st)).
  split; [done|]. split; [apply elem_of_loaded|].
  split; [apply elem_of_loaded_inv|].
  split; [by rewrite length_fmap, length_map_to_list|].
  rewrite <- list_fmap_compose.
  rewrite (list_fmap_ext _ (Some ∘ fst)) by (by intros i [k r] _).
  rewrite list_fmap_compose. apply NoDup_fmap_2; [apply _|].
  apply NoDup_fst_map_to_list.
Qed.

(** ** Creating, in general *)

Lemma TodoItem_model_validate_Ok (c : TodoItemCreate.t) (todo : TodoItem.t) :
  TodoItem_model_validate c = Ok todo →
  capped (TodoItemCreate.priority c) ∧
  todo = TodoItem.mk None (Some (TodoItemCreate.title c))
           (TodoItemCreate.description c) (Some false)
           (TodoItemCreate.priority c) (TodoItemCreate.due_date c).
Proof.
  unfold TodoItem_model_validate, Pydantic.max_length.
  destruct (TodoItemCreate.priority c) as [p|]; cbn.
  - destruct (Nat.leb (String.length p) 50) eqn:Hlen; cbn; [|done].
    apply Nat.leb_le in Hlen. by intros [= <-].
  - by intros [= <-].
Qed.

(** The create that is answered 201, statement by statement. *)
Lemma view_create_201 (fl : faults) (st : store) (todo_data : json) :
  let '(resp, st') := view (create_todo_flask fl todo_data) st in
  status resp = 201 →
  ∃ c,
    TodoItemCreate_init todo_data = Ok c
    ∧ capped (TodoItemCreate.priority c)
    ∧ rows st !! next_id st = None
    ∧ let r := mkRow (TodoItemCreate.title c) (TodoItemCreate.description c)
                 false (TodoItemCreate.priority c)
                 (TodoItemCreate.due_date c) in
      resp = mkResponse (Todo (load (next_id st) r)) 201
      ∧ st' = mkStore (<[next_id st := r]> (rows st)) (next_id st + 1).
Proof.
  rewrite view_create. cbn zeta.
  destruct (TodoItemCreate_init todo_data) as [c|e] eqn:Hc;
    cbn [mbind result_bind]; [|done].
  destruct (TodoItem_model_validate c) as [todo|e] eqn:Hv; [|done].
  pose proof (TodoItem_model_validate_row _ _ Hv) as [_ Hrow].
  apply TodoItem_model_validate_Ok in Hv as [Hcap _].
  destruct (fl Commit && negb (fl AtCommit)); [done|].
  destruct (adapt_insert todo); [|done].
  case_bool_decide; [|done]. cbn zeta. rewrite Hrow.
  destruct (rows st !! next_id st) eqn:Hfresh; [done|].
  destruct (fl Commit); [done|].
  destruct (fl Refresh); [done|]. intros _. by exists c.
Qed.

(** X2: a create that is accepted (201) has validated the body into a
    [TodoItemCreate]; the row it stores and returns holds the fields of
    that model, [completed] false, and as id the next number of the
    sequence, which no row had.  Nothing else of the body is read: an
    [id] or a [completed] in the body changes nothing. *)
Theorem create_accepted (fl : faults) (st : store) (todo_data : json) :
  let '(resp, st') := view (create_todo_flask fl todo_data) st in
  status resp = 201 →
  ∃ c,
    TodoItemCreate_init todo_data = Ok c
    ∧ capped (TodoItemCreate.priority c)
    ∧ rows st !! next_id st = None
    ∧ let r := mkRow (TodoItemCreate.title c) (TodoItemCreate.description c)
                 false (TodoItemCreate.priority c)
                 (TodoItemCreate.due_date c) in
      resp = mkResponse (Todo (load (next_id st) r)) 201
      ∧ st' = mkStore (<[next_id st := r]> (rows st)) (next_id st + 1).
Proof. apply view_create_201. Qed.

(** X3: what a create or an update returns is what the store holds: the
    item of a response is the stored row under the item's id. *)
Theorem returned_item_is_stored (fl : faults) (st : store) (todo_id : Z)
    (todo_data : json) :
  (let '(resp, st') := view (create_todo_flask fl todo_data) st in
   ∀ todo, content resp = Todo todo →
           ∃ k r, TodoItem.id todo = Some k ∧ rows st' !! k = Some r ∧
                  todo = load k r)
  ∧
  (let '(resp, st') := view (update_todo_flask fl todo_id todo_data) st in
   ∀ todo, content resp = Todo todo →
           TodoItem.id todo = Some todo_id ∧
           ∃ r, rows st' !! todo_id = Some r ∧ todo = load todo_id r).
Proof.
  split.
  - rewrite view_create. cbn zeta.
    destruct (_ ≫= _) as [todo'|]; [|done].
    destruct (fl Commit && negb (fl AtCommit)); [done|].
    destruct (adapt_insert todo'); [|done].
    case_bool_decide; [|done]. cbn zeta.
    destruct (insert_row todo') as [r|]; [|done].
    destruct (rows st !! next_id st); [done|].
    destruct (fl Commit); [done|].
    destruct (fl Refresh); [done|]. cbn. intros todo [= <-].
    exists (next_id st), r. by rewrite lookup_insert_eq.
  - rewrite view_update. cbn zeta.
    destruct (fl Get); [done|].
    destruct (rows st !! todo_id) as [r|]; [|done].
    destruct (TodoItemUpdate_init todo_data); [|done].
    destruct (fl Commit); [done|].
    destruct (flush_update r _) as [r'|]; [|done].
    destruct (fl Refresh); [done|]. cbn. intros todo [= <-].
    split; [done|]. exists r'. by rewrite lookup_insert_eq.
Qed.

(** ** Updating, in general *)

Lemma TodoItemUpdate_init_JObj (m : gmap string json) (u : TodoItemUpdate.t) :
  TodoItemUpdate_init (JObj m) = Ok u →
  Pydantic.with_default (Pydantic.optional Pydantic.validate_str) None
    (m !! "title") = Ok (TodoItemUpdate.title u)
  ∧ Pydantic.with_default (Pydantic.optional Pydantic.validate_str) None
      (m !! "description") = Ok (TodoItemUpdate.description u)
  ∧ Pydantic.with_default (Pydantic.optional Pydantic.validate_bool) None
      (m !! "completed") = Ok (TodoItemUpdate.completed u)
  ∧ Pydantic.with_default (Pydantic.optional Pydantic.validate_str) None
      (m !! "priority") = Ok (TodoItemUpdate.priority u)
  ∧ Pydantic.with_default (Pydantic.optional validate_date) None
      (m !! "due_date") = Ok (TodoItemUpdate.due_date u)
  ∧ TodoItemUpdate.model_fields_set u = dom m ∩ update_fields.
Proof.
  unfold TodoItemUpdate_init. cbn [Pydantic.kwargs mbind result_bind].
  intros Hu.
  repeat (cbn [mbind result_bind] in Hu;
    match type of Hu with
    | context [Pydantic.with_default ?f ?d (m !! ?k)] =>
        destruct (Pydantic.with_default f d (m !! k)); [|done]
    end).
  cbn in Hu. by injection Hu as <-.
Qed.

(** An attribute of the update is assigned when the body has its key,
    with the value the body's value validates to. *)
Lemma picked_field {A : Type} (validate : json → result (option A))
    (m : gmap string json) (fields_set : gset string) (k : string)
    (new old : option A) :
  Pydantic.with_default validate None (m !! k) = Ok new →
  fields_set = dom m ∩ update_fields →
  k ∈ update_fields →
  (if bool_decide (k ∈ fields_set) then new else old) =
    match m !! k with Some _ => new | None => old end
  ∧ ∀ v, m !! k = Some v → validate v = Ok new.
Proof.
  intros Hnew -> Hk. split.
  - destruct (m !! k) eqn:Hm.
    + rewrite bool_decide_eq_true_2; [done|].
      apply elem_of_intersection. split; [|done]. by apply elem_of_dom.
    + rewrite bool_decide_eq_false_2; [done|].
      intros [Hin _]%elem_of_intersection.
      apply elem_of_dom in Hin as [? ?]. congruence.
  - intros v Hv. by rewrite Hv in Hnew.
Qed.

(** The row an UPDATE writes holds the attributes of the object; its
    [priority] is the stored one when the attribute is the loaded value,
    and else what the column makes of the attribute. *)
Lemma flush_update_Ok (r r' : row) (todo : TodoItem.t) :
  flush_update r todo = Ok r' →
  TodoItem.title todo = Some (row_title r')
  ∧ TodoItem.description todo = row_description r'
  ∧ TodoItem.completed todo = Some (row_completed r')
  ∧ ((TodoItem.priority todo = row_priority r
      ∧ row_priority r' = row_priority r)
     ∨ (TodoItem.priority todo ≠ row_priority r
        ∧ varchar 50 (TodoItem.priority todo) = Ok (row_priority r')))
  ∧ TodoItem.due_date todo = row_due_date r'.
Proof.
  intros Hflush. pose proof (flush_update_priority _ _ _ Hflush) as Hp.
  by apply flush_update_inv in Hflush as (_ & _ & _ & _ & Ht & Hd & Hc & Hdd).
Qed.

(** X4: an update is partial.  On a stored row and an object for body,
    whatever the outcome, a column whose key the body does not have
    keeps its value.  When the answer is 200, it carries the row as now
    stored, and a column whose key the body has holds what the body's
    value validates to; a null clears [description], [priority] or
    [due_date].  For [priority] the column holds what it makes of that
    value: the value itself, or its first 50 characters when what
    follows them is spaces only; a value equal to the stored one is not
    written again. *)
Theorem update_is_partial (fl : faults) (st : store) (todo_id : Z) (r : row)
    (m : gmap string json) :
  rows st !! todo_id = Some r →
  let '(resp, st') := view (update_todo_flask fl todo_id (JObj m)) st in
  ∃ r',
    rows st' !! todo_id = Some r'
    ∧ (m !! "title" = None → row_title r' = row_title r)
    ∧ (m !! "description" = None → row_description r' = row_description r)
    ∧ (m !! "completed" = None → row_completed r' = row_completed r)
    ∧ (m !! "priority" = None → row_priority r' = row_priority r)
    ∧ (m !! "due_date" = None → row_due_date r' = row_due_date r)
    ∧ (status resp = 200 →
       resp = mkResponse (Todo (load todo_id r')) 200
       ∧ (∀ v, m !! "title" = Some v →
               Pydantic.optional Pydantic.validate_str v =
               Ok (Some (row_title r')))
       ∧ (∀ v, m !! "description" = Some v →
               Pydantic.optional Pydantic.validate_str v =
               Ok (row_description r'))
       ∧ (∀ v, m !! "completed" = Some v →
               Pydantic.optional Pydantic.validate_bool v =
               Ok (Some (row_completed r')))
       ∧ (∀ v, m !! "priority" = Some v →
               ∃ p, Pydantic.optional Pydantic.validate_str v = Ok p
                    ∧ ((p = row_priority r ∧ row_priority r' = p)
                       ∨ (p ≠ row_priority r
                          ∧ varchar 50 p = Ok (row_priority r'))))
       ∧ (∀ v, m !! "due_date" = Some v →
               Pydantic.optional validate_date v = Ok (row_due_date r'))).
Proof.
  intros Hr. rewrite view_update, Hr. cbn zeta.
  destruct (fl Get); [by exists r|].
  destruct (TodoItemUpdate_init (JObj m)) as [u|e] eqn:Hu; [|by exists r].
  destruct (fl Commit).
  { exists r. by destruct (fl AtCommit). }
  destruct (flush_update r _) as [r'|e] eqn:Hflush; [|by exists r].
  apply TodoItemUpdate_init_JObj in Hu
    as (Htitle & Hdesc & Hcompl & Hprio & Hdue & Hset).
  apply flush_update_Ok in Hflush as (Ft & Fd & Fc & Fp & Fdd).
  rewrite foldl_setattr_model_dump in Ft, Fd, Fc, Fp, Fdd.
  cbn in Ft, Fd, Fc, Fp, Fdd.
  destruct (picked_field _ m _ "title" _ (Some (row_title r)) Htitle Hset)
    as [Et Vt]; [set_solver|].
  destruct (picked_field _ m _ "description" _ (row_description r) Hdesc Hset)
    as [Ed Vd]; [set_solver|].
  destruct (picked_field _ m _ "completed" _ (Some (row_completed r)) Hcompl
              Hset) as [Ec Vc]; [set_solver|].
  destruct (picked_field _ m _ "priority" _ (row_priority r) Hprio Hset)
    as [Ep Vp]; [set_solver|].
  destruct (picked_field _ m _ "due_date" _ (row_due_date r) Hdue Hset)
    as [Edd Vdd]; [set_solver|].
  rewrite Et in Ft. rewrite Ed in Fd. rewrite Ec in Fc. rewrite Ep in Fp.
  rewrite Edd in Fdd. clear Et Ed Ec Ep Edd.
  assert ((m !! "title" = None → row_title r' = row_title r)
    ∧ (m !! "description" = None → row_description r' = row_description r)
    ∧ (m !! "completed" = None → row_completed r' = row_completed r)
    ∧ (m !! "priority" = None → row_priority r' = row_priority r)
    ∧ (m !! "due_date" = None → row_due_date r' = row_due_date r))
    as (Kt & Kd & Kc & Kp & Kdd).
  { repeat split; intros E.
    - rewrite E in Ft. by injection Ft.
    - by rewrite E in Fd.
    - rewrite E in Fc. by injection Fc.
    - rewrite E in Fp. by destruct Fp as [[_ ?]|[? _]].
    - by rewrite E in Fdd. }
  destruct (fl Refresh); exists r'; cbn [rows]; rewrite lookup_insert_eq;
    (split; [done|]); do 5 (split; [done|]); [done|].
  intros _. split; [done|].
  split; [|split; [|split; [|split]]]; intros v E.
  - rewrite E in Ft. by rewrite (Vt v E), Ft.
  - rewrite E in Fd. by rewrite (Vd v E), Fd.
  - rewrite E in Fc. by rewrite (Vc v E), Fc.
  - rewrite E in Fp. exists (TodoItemUpdate.priority u).
    split; [exact (Vp v E)|]. destruct Fp as [[? ?]|[? ?]].
    + left. split; congruence.
    + by right.
  - rewrite E in Fdd. by rewrite (Vdd v E), Fdd.
Qed.

(** ** Keys the models do not read *)

Lemma TodoItemCreate_init_agree (m m' : gmap string json) :
  agree_on create_keys m m' →
  TodoItemCreate_init (JObj m) = TodoItemCreate_init (JObj m').
Proof.
  unfold agree_on, create_keys. rewrite !Forall_cons.
  intros (Ht & Hd & Hp & Hdd & _).
  unfold TodoItemCreate_init. cbn [Pydantic.kwargs mbind result_bind].
  by rewrite Ht, Hd, Hp, Hdd.
Qed.

Lemma TodoItemUpdate_init_agree (m m' : gmap string json) :
  agree_on update_keys m m' →
  TodoItemUpdate_init (JObj m) = TodoItemUpdate_init (JObj m').
Proof.
  unfold agree_on, update_keys. rewrite !Forall_cons.
  intros (Ht & Hd & Hc & Hp & Hdd & _).
  assert (dom m ∩ update_fields = dom m' ∩ update_fields) as Hset.
  { apply set_eq. intros k. rewrite !elem_of_intersection, !elem_of_dom.
    assert (k ∈ update_fields → m !! k = m' !! k) as Hk.
    { unfold update_fields. rewrite !elem_of_union, !elem_of_singleton.
      by intros [[[[-> | ->] | ->] | ->] | ->]. }
    split; intros [Hin Hfield]; (split; [|done]).
    - by rewrite <- Hk.
    - by rewrite Hk. }
  unfold TodoItemUpdate_init. cbn [Pydantic.kwargs mbind result_bind].
  by rewrite Ht, Hd, Hc, Hp, Hdd, Hset.
Qed.

Lemma TranslationRequest_init_agree (m m' : gmap string json) :
  agree_on translation_keys m m' →
  TranslationRequest_init (JObj m) = TranslationRequest_init (JObj m').
Proof.
  unfold agree_on, translation_keys. rewrite !Forall_cons.
  intros (Ht & Hl & _).
  unfold TranslationRequest_init. cbn [Pydantic.kwargs mbind result_bind].
  by rewrite Ht, Hl.
Qed.

(** X5: a view function reads of its body only the keys of its request
    model.  Two bodies that give the same values for those keys get the
    same response and leave the same store: an [id] or a [completed] sent
    to the create, an [id] sent to the update, or any unknown key, has
    no effect and is no error. *)
Theorem unread_keys_are_ignored (fl : faults) (st : store) (todo_id : Z)
    (model : option GenerativeModel) (w : world) (m m' : gmap string json) :
  (agree_on create_keys m m' →
   view (create_todo_flask fl (JObj m)) st =
   view (create_todo_flask fl (JObj m')) st)
  ∧ (agree_on update_keys m m' →
     view (update_todo_flask fl todo_id (JObj m)) st =
     view (update_todo_flask fl todo_id (JObj m')) st)
  ∧ (agree_on translation_keys m m' →
     translate_text_flask model w (JObj m) =
     translate_text_flask model w (JObj m')).
Proof.
  repeat split.
  - intros Hm. by rewrite !view_create, (TodoItemCreate_init_agree m m').
  - intros Hm. by rewrite !view_update, (TodoItemUpdate_init_agree m m').
  - intros Hm. unfold translate_text_flask.
    by rewrite (TranslationRequest_init_agree m m').
Qed.

(** ** Updating twice *)

Lemma foldl_setattr_twice (todo : TodoItem.t) (u : TodoItemUpdate.t) :
  foldl setattr (foldl setattr todo (model_dump_exclude_unset u))
    (model_dump_exclude_unset u) =
  foldl setattr todo (model_dump_exclude_unset u).
Proof.
  rewrite !foldl_setattr_model_dump. cbn.
  by repeat case_bool_decide.
Qed.

(** The row an UPDATE wrote is written again by an UPDATE from an object
    that holds its columns, and for [priority] its column or the
    attribute the first UPDATE was flushed from. *)
Lemma flush_update_settled (r r' : row) (todo todo' : TodoItem.t) :
  flush_update r todo = Ok r' →
  TodoItem.title todo' = Some (row_title r') →
  TodoItem.description todo' = row_description r' →
  TodoItem.completed todo' = Some (row_completed r') →
  TodoItem.due_date todo' = row_due_date r' →
  TodoItem.priority todo' = row_priority r'
  ∨ TodoItem.priority todo' = TodoItem.priority todo →
  flush_update r' todo' = Ok r'.
Proof.
  intros (_ & _ & Ap & Hp & _)%flush_update_inv Et Ed Ec Edd Ep.
  assert (adapt_changed (TodoItem.priority todo') (row_priority r') = Ok ()
    ∧ (if bool_decide (TodoItem.priority todo' = row_priority r')
       then Ok (row_priority r')
       else varchar 50 (TodoItem.priority todo')) = Ok (row_priority r'))
    as [Ap' Hp'].
  { unfold adapt_changed in *.
    destruct (decide (TodoItem.priority todo' = row_priority r')) as [E|Hne].
    { by rewrite !bool_decide_eq_true_2. }
    rewrite !(bool_decide_eq_false_2 _ Hne).
    destruct Ep as [?|Ep]; [done|]. rewrite Ep in *.
    case_bool_decide as Hsame; [|done].
    injection Hp as Hp. congruence. }
  unfold flush_update. rewrite Ap', Hp', Et, Ed, Ec, Edd.
  unfold adapt_changed. rewrite !bool_decide_eq_true_2 by done.
  by destruct r'.
Qed.

(** X6: an update is idempotent.  After an update answered 200, the same
    request sent again gets the same response from a store that answers,
    and in any case leaves the store as the first one made it. *)
Theorem update_is_idempotent (fl fl' : faults) (st : store) (todo_id : Z)
    (todo_data : json) :
  let '(resp, st1) := view (update_todo_flask fl todo_id todo_data) st in
  status resp = 200 →
  view (update_todo_flask no_faults todo_id todo_data) st1 = (resp, st1)
  ∧ (view (update_todo_flask fl' todo_id todo_data) st1).2 = st1.
Proof.
  rewrite view_update. cbn zeta.
  destruct (fl Get); [done|].
  destruct (rows st !! todo_id) as [r|] eqn:Hr; [|done].
  destruct (TodoItemUpdate_init todo_data) as [u|e] eqn:Hu; [|done].
  destruct (fl Commit); [by destruct (fl AtCommit)|].
  destruct (flush_update r _) as [r'|e] eqn:Hflush; [|done].
  destruct (fl Refresh); [done|]. intros _.
  assert (flush_update r' (foldl setattr (load todo_id r')
            (model_dump_exclude_unset u)) = Ok r') as Hagain.
  { apply (flush_update_settled r r' _ _ Hflush);
      apply flush_update_Ok in Hflush as (Ft & Fd & Fc & _ & Fdd);
      rewrite !foldl_setattr_model_dump;
      rewrite foldl_setattr_model_dump in Ft, Fd, Fc, Fdd;
      cbn [TodoItem.title TodoItem.description TodoItem.completed
           TodoItem.priority TodoItem.due_date load] in *;
      repeat case_bool_decide; auto. }
  rewrite !view_update, Hu. cbn [rows next_id].
  rewrite lookup_insert_eq, Hagain, insert_insert_eq. cbn zeta.
  split; [done|].
  destruct (fl' Get), (fl' Commit), (fl' Refresh); try done;
    by destruct (fl' AtCommit).
Qed.

(** ** Nulls for columns that are NOT NULL *)

Lemma adapt_changed_Raise (new old : option string) (e : exn) :
  adapt_changed new old = Raise e →
  e = ValueError ∧ ∃ s, has_nul s = true ∧ new = Some s ∧ new ≠ old.
Proof.
  unfold adapt_changed, adapt. case_bool_decide as Hsame; [done|].
  destruct new as [s|]; [|done].
  destruct (has_nul s) eqn:Hnul; [|done].
  intros [= <-]. split; [done|]. by exists s.
Qed.

(** What refuses an UPDATE: the driver, for a text to send that holds a
    NUL character; the column, for a [priority] too long for it; the
    NOT NULL constraints. *)
Lemma flush_update_Raise (r : row) (todo : TodoItem.t) (e : exn) :
  flush_update r todo = Raise e →
  e = IntegrityError ∨ e = DataError
  ∨ (e = ValueError ∧
     ∃ s, has_nul s = true ∧
       ((TodoItem.title todo = Some s
         ∧ TodoItem.title todo ≠ Some (row_title r))
        ∨ (TodoItem.description todo = Some s
           ∧ TodoItem.description todo ≠ row_description r)
        ∨ (TodoItem.priority todo = Some s
           ∧ TodoItem.priority todo ≠ row_priority r))).
Proof.
  unfold flush_update.
  destruct (adapt_changed (TodoItem.title todo) _) as [[]|e'] eqn:At.
  2:{ intros [= <-]. apply adapt_changed_Raise in At as (-> & s & ? & ? & ?).
      right; right. split; [done|]. exists s. split; [done|]. by left. }
  destruct (adapt_changed (TodoItem.description todo) _) as [[]|e'] eqn:Ad.
  2:{ intros [= <-]. apply adapt_changed_Raise in Ad as (-> & s & ? & ? & ?).
      right; right. split; [done|]. exists s. split; [done|].
      right. by left. }
  destruct (adapt_changed (TodoItem.priority todo) _) as [[]|e'] eqn:Ap.
  2:{ intros [= <-]. apply adapt_changed_Raise in Ap as (-> & s & ? & ? & ?).
      right; right. split; [done|]. exists s. split; [done|].
      right. by right. }
  cbn [mbind result_bind].
  destruct (if bool_decide _ then _ else _) as [p|e'] eqn:Hp.
  2:{ intros [= <-]. right; left. case_bool_decide; [done|].
      unfold varchar in Hp. destruct (TodoItem.priority todo); [|done].
      destruct (truncate _ _); [done|]. by injection Hp. }
  cbn [mbind result_bind].
  destruct (TodoItem.title todo); cbn; [|by intros [= <-]; left].
  destruct (TodoItem.completed todo); cbn; [done|by intros [= <-]; left].
Qed.

(** The text an update assigns comes from the body. *)
Lemma picked_text (m : gmap string json) (k : string)
    (new old : option string) (s : string) :
  (∀ v, m !! k = Some v →
        Pydantic.optional Pydantic.validate_str v = Ok new) →
  match m !! k with Some _ => new | None => old end = Some s →
  match m !! k with Some _ => new | None => old end ≠ old →
  m !! k = Some (JStr s).
Proof.
  destruct (m !! k) as [v|]; [|done].
  intros Hv -> _. specialize (Hv v eq_refl).
  destruct v; try done. cbn in Hv. by injection Hv as ->.
Qed.

(** X7: the update model accepts a null for [title] and for [completed],
    and the store does not.  A PUT of a stored row whose body gives null
    for one of them is answered 500 with a detail and writes nothing;
    when the body validates and the commit reaches the store, the
    exception in the detail is the store's refusal, or the driver's when
    a text of the body holds a NUL character. *)
Theorem update_null_is_refused_by_the_store (fl : faults) (st : store)
    (todo_id : Z) (r : row) (m : gmap string json) :
  rows st !! todo_id = Some r →
  fl Get = false →
  m !! "title" = Some JNull ∨ m !! "completed" = Some JNull →
  let '(resp, st') := view (update_todo_flask fl todo_id (JObj m)) st in
  status resp = 500
  ∧ st' = st
  ∧ ∃ e, content resp = Detail (Failed "Failed to update todo: " e)
         ∧ (∀ u, TodoItemUpdate_init (JObj m) = Ok u → fl Commit = false →
                 e = IntegrityError ∨ e = DataError
                 ∨ (e = ValueError ∧
                    ∃ k s, m !! k = Some (JStr s) ∧ has_nul s = true)).
Proof.
  intros Hr Hget Hnull. rewrite view_update, Hget, Hr. cbn zeta.
  destruct (TodoItemUpdate_init (JObj m)) as [u|e] eqn:Hu.
  2:{ repeat split. by exists e. }
  destruct (fl Commit) eqn:Hcommit.
  { repeat split. by eexists. }
  apply TodoItemUpdate_init_JObj in Hu
    as (Htitle & Hdesc & Hcompl & Hprio & _ & Hset).
  destruct (picked_field _ m _ "title" _ (Some (row_title r)) Htitle Hset)
    as [Et Vt]; [set_solver|].
  destruct (picked_field _ m _ "description" _ (row_description r) Hdesc Hset)
    as [Ed Vd]; [set_solver|].
  destruct (picked_field _ m _ "completed" _ (Some (row_completed r))
              Hcompl Hset) as [Ec _]; [set_solver|].
  destruct (picked_field _ m _ "priority" _ (row_priority r) Hprio Hset)
    as [Ep Vp]; [set_solver|].
  destruct (flush_update r _) as [r'|e] eqn:Hflush.
  - exfalso.
    apply flush_update_Ok in Hflush as (Ft & _ & Fc & _ & _).
    rewrite foldl_setattr_model_dump in Ft, Fc. cbn in Ft, Fc.
    destruct Hnull as [Hnull|Hnull].
    + rewrite Et, Hnull in Ft. rewrite Hnull in Htitle. cbn in Htitle.
      congruence.
    + rewrite Ec, Hnull in Fc. rewrite Hnull in Hcompl. cbn in Hcompl.
      congruence.
  - repeat split. exists e. split; [done|]. intros _ _ _.
    apply flush_update_Raise in Hflush
      as [->|[->|(-> & s & Hnul & Hfrom)]]; [by left|by right; left|].
    right; right. split; [done|].
    rewrite foldl_setattr_model_dump in Hfrom. cbn in Hfrom.
    rewrite Et, Ed, Ep in Hfrom.
    destruct Hfrom as [[Hs Hne]|[[Hs Hne]|[Hs Hne]]].
    + exists "title", s. split; [|done]. by eapply picked_text.
    + exists "description", s. split; [|done]. by eapply picked_text.
    + exists "priority", s. split; [|done]. by eapply picked_text.
Qed.

(** ** The shape of the responses *)

(** The answers of the view functions, from a decoded body. *)
Lemma view_answers (fl : faults) (st : store) (todo_id : Z)
    (data : json) (model : option GenerativeModel) (w : world) :
  (let resp := (view (create_todo_flask fl data) st).1 in
   (status resp = 201 ∧ ∃ todo, content resp = Todo todo)
   ∨ (status resp = 400 ∧
      ∃ e, content resp = Detail (Failed "Failed to create todo: " e)))
  ∧
  (let resp := (view (update_todo_flask fl todo_id data) st).1 in
   (status resp = 200 ∧ ∃ todo, content resp = Todo todo)
   ∨ resp = mkResponse (Detail (Literal "To-Do item not found")) 404
   ∨ (status resp = 500 ∧
      ∃ e, content resp = Detail (Failed "Failed to update todo: " e)))
  ∧
  (let resp := (view (delete_todo_flask fl todo_id) st).1 in
   resp = mkResponse Empty 204
   ∨ resp = mkResponse (Detail (Literal "To-Do item not found")) 404
   ∨ (status resp = 500 ∧
      ∃ e, content resp = Detail (Failed "Failed to delete todo: " e)))
  ∧
  (let resp := (translate_text_flask model w data).1 in
   (status resp = 200 ∧ ∃ t, content resp = Translation t)
   ∨ resp = mkResponse
       (Detail (Literal
          "Translation service not available. API key might be missing or invalid."))
       503
   ∨ (status resp = 500 ∧
      ∃ e, content resp = Detail (Failed "Failed to translate text: " e))).
Proof.
  repeat split; cbn zeta.
  - rewrite view_create. cbn zeta.
    destruct (_ ≫= _) as [todo|]; [|right; eauto].
    destruct (fl Commit && negb (fl AtCommit)); [right; eauto|].
    destruct (adapt_insert todo); [|right; eauto].
    case_bool_decide; [|right; eauto].
    destruct (insert_row todo); [|right; eauto].
    destruct (rows st !! next_id st); [right; eauto|].
    destruct (fl Commit); [right; eauto|].
    destruct (fl Refresh); [right; eauto|left; eauto].
  - rewrite view_update. cbn zeta.
    destruct (fl Get); [right; right; eauto|].
    destruct (rows st !! todo_id) as [r|]; [|right; left; eauto].
    destruct (TodoItemUpdate_init data); [|right; right; eauto].
    destruct (fl Commit); [right; right; eauto|].
    destruct (flush_update r _); [|right; right; eauto].
    destruct (fl Refresh); [right; right; eauto|left; eauto].
  - rewrite view_delete. cbn zeta.
    destruct (fl Get); [right; right; eauto|].
    destruct (rows st !! todo_id); [|right; left; eauto].
    destruct (fl Commit); [right; right; eauto|left; eauto].
  - unfold translate_text_flask.
    destruct model as [model|]; [|right; left; eauto].
    destruct (TranslationRequest_init data) as [t|]; [|right; right; eauto].
    destruct (generate_content w model _); [left; eauto|right; right; eauto].
Qed.

(** The response to a request: the page of the framework when the table
    setup fails, and else the response of the route. *)
Lemma serve_response (w : world) (a : app) (rq : request) :
  (db_initialized a = false ∧ db_faults w CreateAll = true
   ∧ (serve w a rq).1.1 = internal_server_error)
  ∨ (serve w a rq).1.1 =
    match rq with
    | GET_index => mkResponse (Html "index.html") 200
    | GET_todos => (view (get_all_todos_flask (db_faults w)) (database a)).1
    | POST_todos p =>
        match request_json p with
        | inl page => page
        | inr data =>
            (view (create_todo_flask (db_faults w) data) (database a)).1
        end
    | PUT_todos todo_id p =>
        match request_json p with
        | inl page => page
        | inr data =>
            (view (update_todo_flask (db_faults w) todo_id data)
               (database a)).1
        end
    | DELETE_todos todo_id =>
        (view (delete_todo_flask (db_faults w) todo_id) (database a)).1
    | POST_translate p =>
        match gemini_model a, request_json p with
        | Some _, inl page => page
        | _, inr data => (translate_text_flask (gemini_model a) w data).1
        | None, inl _ => unavailable
        end
    end.
Proof.
  assert (∀ a', gemini_model a' = gemini_model a →
                database a' = database a →
    (dispatch w a' rq).1.1 =
    match rq with
    | GET_index => mkResponse (Html "index.html") 200
    | GET_todos => (view (get_all_todos_flask (db_faults w)) (database a)).1
    | POST_todos p =>
        match request_json p with
        | inl page => page
        | inr data =>
            (view (create_todo_flask (db_faults w) data) (database a)).1
        end
    | PUT_todos todo_id p =>
        match request_json p with
        | inl page => page
        | inr data =>
            (view (update_todo_flask (db_faults w) todo_id data)
               (database a)).1
        end
    | DELETE_todos todo_id =>
        (view (delete_todo_flask (db_faults w) todo_id) (database a)).1
    | POST_translate p =>
        match gemini_model a, request_json p with
        | Some _, inl page => page
        | _, inr data => (translate_text_flask (gemini_model a) w data).1
        | None, inl _ => unavailable
        end
    end) as Hroute.
  { intros a' Hm Hdb. unfold dispatch. rewrite Hm, Hdb.
    destruct rq as [| |p|todo_id p|todo_id|p]; try done.
    - by destruct (view _ _).
    - destruct p; cbn; try done. by destruct (view _ _).
    - destruct p; cbn; try done. by destruct (view _ _).
    - by destruct (view _ _).
    - destruct (gemini_model a) as [model|]; [|by destruct p].
      destruct p; cbn -[translate_text_flask]; try done.
      by destruct (translate_text_flask _ _ _). }
  unfold serve, ensure_db_tables_exist.
  destruct (db_initialized a); [right; by apply Hroute|].
  destruct (db_faults w CreateAll); [by left|].
  right. by apply Hroute.
Qed.

(** X8: the answers of the four JSON endpoints.  The view functions
    answer with a fixed set of statuses, and every answer of theirs that
    is not the success carries a JSON detail: 201 or 400 for the create;
    200, 404 or 500 for the update; 204 with an empty body, 404 or 500
    for the delete; 200, 503 or 500 for the translation.  The framework
    answers in their place, with a page and no detail, in two cases:
    when the body does not decode (415 or 400; for the translation only
    when there is a model, the 503 coming first), and when the setup of
    the tables fails before the view function is called (500). *)
Theorem errors_carry_a_detail (w : world) (a : app) (todo_id : Z)
    (p : payload) :
  let undecoded (resp : response) : Prop :=
    request_json p = inl resp in
  let setup_failed (resp : response) : Prop :=
    db_initialized a = false ∧ db_faults w CreateAll = true
    ∧ resp = internal_server_error in
  (let resp := (serve w a (POST_todos p)).1.1 in
   (status resp = 201 ∧ ∃ todo, content resp = Todo todo)
   ∨ (status resp = 400 ∧
      ∃ e, content resp = Detail (Failed "Failed to create todo: " e))
   ∨ undecoded resp
   ∨ setup_failed resp)
  ∧
  (let resp := (serve w a (PUT_todos todo_id p)).1.1 in
   (status resp = 200 ∧ ∃ todo, content resp = Todo todo)
   ∨ resp = mkResponse (Detail (Literal "To-Do item not found")) 404
   ∨ (status resp = 500 ∧
      ∃ e, content resp = Detail (Failed "Failed to update todo: " e))
   ∨ undecoded resp
   ∨ setup_failed resp)
  ∧
  (let resp := (serve w a (DELETE_todos todo_id)).1.1 in
   resp = mkResponse Empty 204
   ∨ resp = mkResponse (Detail (Literal "To-Do item not found")) 404
   ∨ (status resp = 500 ∧
      ∃ e, content resp = Detail (Failed "Failed to delete todo: " e))
   ∨ setup_failed resp)
  ∧
  (let resp := (serve w a (POST_translate p)).1.1 in
   (status resp = 200 ∧ ∃ t, content resp = Translation t)
   ∨ resp = mkResponse
       (Detail (Literal
          "Translation service not available. API key might be missing or invalid."))
       503
   ∨ (status resp = 500 ∧
      ∃ e, content resp = Detail (Failed "Failed to translate text: " e))
   ∨ (undecoded resp ∧ is_Some (gemini_model a))
   ∨ setup_failed resp).
Proof.
  cbn zeta. split; [|split; [|split]].
  - destruct (serve_response w a (POST_todos p)) as [Hsetup| ->].
    { by do 3 right. }
    destruct (request_json p) as [page|data] eqn:Hp; [by right; right; left|].
    destruct (view_answers (db_faults w) (database a) todo_id data
                (gemini_model a) w) as ([H|H] & _); auto.
  - destruct (serve_response w a (PUT_todos todo_id p)) as [Hsetup| ->].
    { by do 4 right. }
    destruct (request_json p) as [page|data] eqn:Hp; [by do 3 right; left|].
    destruct (view_answers (db_faults w) (database a) todo_id data
                (gemini_model a) w) as (_ & [H|[H|H]] & _); auto.
  - destruct (serve_response w a (DELETE_todos todo_id)) as [Hsetup| ->].
    { by do 3 right. }
    destruct (view_answers (db_faults w) (database a) todo_id JNull
                (gemini_model a) w) as (_ & _ & [H|[H|H]] & _); auto.
  - destruct (serve_response w a (POST_translate p)) as [Hsetup| ->].
    { by do 4 right. }
    destruct (request_json p) as [page|data] eqn:Hp.
    + destruct (gemini_model a) as [model|]; [|by right; left].
      do 3 right. left. by split.
    + destruct (view_answers (db_faults w) (database a) todo_id data
                  (gemini_model a) w) as (_ & _ & _ & [H|[H|H]]);
        destruct (gemini_model a); auto.
Qed.

(** ** What a write leaves alone *)

(** The store a create leaves: the one it found, that one with a number
    drawn from the sequence, or that one with a row under that number. *)
Lemma view_create_store (fl : faults) (st : store) (data : json) :
  let st' := (view (create_todo_flask fl data) st).2 in
  st' = st
  ∨ st' = mkStore (rows st) (next_id st + 1)
  ∨ (rows st !! next_id st = None
     ∧ ∃ r, st' = mkStore (<[next_id st := r]> (rows st)) (next_id st + 1)).
Proof.
  rewrite view_create. cbn zeta.
  destruct (_ ≫= _) as [todo|]; [|by left].
  destruct (fl Commit && negb (fl AtCommit)); [by left|].
  destruct (adapt_insert todo); [|by left].
  case_bool_decide; [|by left].
  destruct (insert_row todo) as [r|]; [|by right; left].
  destruct (rows st !! next_id st) eqn:Hfresh; [by right; left|].
  destruct (fl Commit); [by right; left|].
  destruct (fl Refresh); right; right; eauto.
Qed.

(** X9: a write touches one row.  A create leaves every stored row as it
    is and adds at most the row under the next key of the sequence; an
    update and a delete leave every row but the one addressed as it is,
    and the sequence where it was; an update neither adds nor removes a
    key. *)
Theorem write_touches_one_row (fl : faults) (st : store) (todo_id : Z)
    (data : json) :
  (let st' := (view (create_todo_flask fl data) st).2 in
   (∀ k r, rows st !! k = Some r → rows st' !! k = Some r)
   ∧ (∀ k, k ≠ next_id st → rows st' !! k = rows st !! k)
   ∧ (st' = st ∨ next_id st' = next_id st + 1))
  ∧
  (let st' := (view (update_todo_flask fl todo_id data) st).2 in
   (∀ k, k ≠ todo_id → rows st' !! k = rows st !! k)
   ∧ dom (rows st') = dom (rows st)
   ∧ next_id st' = next_id st)
  ∧
  (let st' := (view (delete_todo_flask fl todo_id) st).2 in
   (∀ k, k ≠ todo_id → rows st' !! k = rows st !! k)
   ∧ next_id st' = next_id st).
Proof.
  repeat split; cbn zeta.
  - intros k r Hr.
    destruct (view_create_store fl st data)
      as [-> | [-> | (Hfresh & r' & ->)]]; [done..|].
    cbn. rewrite lookup_insert_ne; [done|congruence].
  - intros k Hk.
    destruct (view_create_store fl st data)
      as [-> | [-> | (Hfresh & r' & ->)]]; [done..|].
    cbn. by rewrite lookup_insert_ne.
  - destruct (view_create_store fl st data)
      as [-> | [-> | (Hfresh & r' & ->)]]; [by left|by right..].
  - intros k Hk. rewrite view_update. cbn zeta.
    destruct (fl Get); [done|].
    destruct (rows st !! todo_id) as [r|]; [|done].
    destruct (TodoItemUpdate_init data); [|done].
    destruct (fl Commit); [done|].
    destruct (flush_update r _); [|done].
    destruct (fl Refresh); cbn; by rewrite lookup_insert_ne.
  - rewrite view_update. cbn zeta.
    destruct (fl Get); [done|].
    destruct (rows st !! todo_id) as [r|] eqn:Hr; [|done].
    destruct (TodoItemUpdate_init data); [|done].
    destruct (fl Commit); [done|].
    destruct (flush_update r _); [|done].
    destruct (fl Refresh); cbn; by apply dom_insert_lookup_L.
  - rewrite view_update. cbn zeta.
    destruct (fl Get); [done|].
    destruct (rows st !! todo_id) as [r|]; [|done].
    destruct (TodoItemUpdate_init data); [|done].
    destruct (fl Commit); [done|].
    destruct (flush_update r _); [|done].
    by destruct (fl Refresh).
  - intros k Hk. rewrite view_delete. cbn zeta.
    destruct (fl Get); [done|].
    destruct (rows st !! todo_id); [|done].
    destruct (fl Commit); [done|]. cbn. by rewrite lookup_delete_ne.
  - rewrite view_delete. cbn zeta.
    destruct (fl Get); [done|].
    destruct (rows st !! todo_id); [|done].
    by destruct (fl Commit).
Qed.

(** ** Creating, then listing or deleting *)

(** X10: after a create answered 201, the list holds the item of that
    response and the items it held before, and nothing else; the new
    item was not in the list before. *)
Theorem create_then_list (fl : faults) (st : store) (todo_data : json)
    (todo : TodoItem.t) (todos : list TodoItem.t) :
  let '(resp, st') := view (create_todo_flask fl todo_data) st in
  resp = mkResponse (Todo todo) 201 →
  view (get_all_todos_flask no_faults) st = (mkResponse (Todos todos) 200, st) →
  ∃ todos',
    view (get_all_todos_flask no_faults) st' =
      (mkResponse (Todos todos') 200, st')
    ∧ (∀ t, t ∈ todos' ↔ t = todo ∨ t ∈ todos)
    ∧ (todo ∉ todos)
    ∧ length todos' = S (length todos).
Proof.
  pose proof (view_create_201 fl st todo_data) as Hc.
  destruct (view (create_todo_flask fl todo_data) st) as [resp st'].
  intros ->. destruct (Hc eq_refl) as (c & _ & _ & Hfresh & [= ->] & ->).
  clear Hc. rewrite !view_get_all. cbn [no_faults]. intros [= <-].
  eexists. split; [done|]. cbn [rows]. repeat split.
  - intros Hin. apply elem_of_loaded_inv in Hin as (k & r & -> & Hin).
    apply lookup_insert_Some in Hin as [[-> ->]|[Hk Hr]].
    + by left.
    + right. by apply elem_of_loaded.
  - intros [->|(k & r & -> & Hr)%elem_of_loaded_inv]; apply elem_of_loaded.
    + apply lookup_insert_eq.
    + rewrite lookup_insert_ne; [done|congruence].
  - intros Hin%elem_of_loaded. congruence.
  - by rewrite !length_fmap, !length_map_to_list, map_size_insert_None.
Qed.

(** X11: deleting the item a create has just returned is answered 204
    and gives the table back as it was before the create; the sequence
    has moved on, so the id is not given out again. *)
Theorem create_then_delete (fl : faults) (st : store) (todo_data : json)
    (todo : TodoItem.t) :
  let '(resp, st') := view (create_todo_flask fl todo_data) st in
  resp = mkResponse (Todo todo) 201 →
  TodoItem.id todo = Some (next_id st)
  ∧ view (delete_todo_flask no_faults (next_id st)) st' =
    (mkResponse Empty 204, mkStore (rows st) (next_id st + 1)).
Proof.
  pose proof (view_create_201 fl st todo_data) as Hc.
  destruct (view (create_todo_flask fl todo_data) st) as [resp st'].
  intros ->. destruct (Hc eq_refl) as (c & _ & _ & Hfresh & [= ->] & ->).
  split; [done|]. rewrite view_delete. cbn [no_faults rows next_id].
  by rewrite lookup_insert_eq, delete_insert_id.
Qed.

Lemma writes_next_id (st st' : store) :
  writes st st' → next_id st ≤ next_id st'.
Proof. intros [| | | |]; cbn; lia. Qed.

(** X12: an id is given out once.  After a create has returned an item,
    whatever requests are served since, also deletes, a later create
    returns an item with a greater id. *)
Theorem ids_are_given_once (fl fl' : faults) (st : store)
    (todo_data todo_data' : json) (a : app) (rqs : list (world * request)) :
  let '(resp, st1) := view (create_todo_flask fl todo_data) st in
  database a = st1 →
  let st2 := database (serve_all a rqs).1.2 in
  ∀ todo todo',
    content resp = Todo todo →
    content (view (create_todo_flask fl' todo_data') st2).1 = Todo todo' →
    ∃ k k', TodoItem.id todo = Some k ∧ TodoItem.id todo' = Some k' ∧ k < k'.
Proof.
  assert (∀ fl st data todo,
    content (view (create_todo_flask fl data) st).1 = Todo todo →
    TodoItem.id todo = Some (next_id st) ∧
    next_id (view (create_todo_flask fl data) st).2 = next_id st + 1)
    as Hcreate.
  { intros fl0 st0 data todo. rewrite view_create. cbn zeta.
    destruct (_ ≫= _) as [todo0|]; [|done].
    destruct (fl0 Commit && negb (fl0 AtCommit)); [done|].
    destruct (adapt_insert todo0); [|done].
    case_bool_decide; [|done].
    destruct (insert_row todo0); [|done].
    destruct (rows st0 !! next_id st0); [done|].
    destruct (fl0 Commit); [done|].
    destruct (fl0 Refresh); [done|]. cbn. by intros [= <-]. }
  pose proof (Hcreate fl st todo_data) as H1.
  destruct (view (create_todo_flask fl todo_data) st) as [resp st1].
  cbn [fst snd] in H1. intros Ha. cbn zeta. intros todo todo' Hresp Hresp'.
  destruct (H1 todo Hresp) as [Hid Hnext].
  destruct (Hcreate _ _ _ _ Hresp') as [Hid' _].
  exists (next_id st), (next_id (database (serve_all a rqs).1.2)).
  split; [done|]. split; [done|].
  apply (serve_all_invariant (λ s, next_id st < next_id s)).
  - intros s s' Hw%writes_next_id. lia.
  - rewrite Ha. lia.
Qed.

(** ** Setting up the tables *)

Lemma dispatch_db_initialized (w : world) (a : app) (rq : request) :
  db_initialized (dispatch w a rq).1.2 = db_initialized a.
Proof.
  destruct rq as [| |p|todo_id p|todo_id|p]; cbn; try done.
  - by destruct (view _ _).
  - destruct p; cbn; try done. by destruct (view _ _).
  - destruct p; cbn; try done. by destruct (view _ _).
  - by destruct (view _ _).
  - destruct (gemini_model a) eqn:Hm; [|done].
    destruct p; cbn -[translate_text_flask]; try done.
    by destruct (translate_text_flask _ _ _).
Qed.

Lemma serve_db_initialized (w : world) (a : app) (rq : request) :
  db_initialized a = true ∨ db_faults w CreateAll = false →
  db_initialized (serve w a rq).1.2 = true.
Proof.
  unfold serve, ensure_db_tables_exist.
  destruct (db_initialized a) eqn:Hinit.
  - intros _. by rewrite dispatch_db_initialized.
  - intros [Ha | ->]; [done|]. by rewrite dispatch_db_initialized.
Qed.

Lemma serve_all_db_initialized (a : app) (rqs : list (world * request)) :
  db_initialized a = true → db_initialized (serve_all a rqs).1.2 = true.
Proof.
  revert a. induction rqs as [|[w rq] rest IH]; intros a Ha; [done|].
  cbn [serve_all].
  pose proof (serve_db_initialized w a rq (or_introl Ha)) as Ha'.
  destruct (serve w a rq) as [[r a'] prompts]. cbn in Ha'.
  specialize (IH a' Ha').
  by destruct (serve_all a' rest) as [[rs a''] prompts'].
Qed.

(** X13: while the tables cannot be created, nothing is served.  From a
    process that has not set up its tables, requests whose setup fails
    are each answered with the framework's 500 page, whatever they ask
    for; the view functions are not reached: the store and the process
    are as before and no prompt is sent. *)
Theorem setup_failure_serves_nothing (a : app)
    (rqs : list (world * request)) :
  db_initialized a = false →
  Forall (λ wrq, db_faults wrq.1 CreateAll = true) rqs →
  serve_all a rqs = (replicate (length rqs) internal_server_error, a, []).
Proof.
  intros Ha Hrqs. induction Hrqs as [|[w rq] rest Hw _ IH]; [done|].
  cbn [serve_all length replicate]. cbn in Hw.
  unfold serve, ensure_db_tables_exist. by rewrite Ha, Hw, IH.
Qed.

(** X14: the tables are set up once.  The first request whose setup does
    not fail sets the flag; the flag is never unset by the requests
    served since; and with the flag set the setup is not run again: a
    request is served by its view function even if creating the tables
    would now fail. *)
Theorem tables_are_set_up_once (w : world) (a : app) (rq : request)
    (rqs : list (world * request)) :
  (db_initialized a = true ∨ db_faults w CreateAll = false →
   db_initialized (serve_all (serve w a rq).1.2 rqs).1.2 = true)
  ∧ (db_initialized a = true → serve w a rq = dispatch w a rq).
Proof.
  split.
  - intros Hok. by apply serve_all_db_initialized, serve_db_initialized.
  - intros Ha. unfold serve, ensure_db_tables_exist. by rewrite Ha.
Qed.

(** ** Translating with a model *)


(** X15: with a model, a body that gives [text] and [target_language] as
    texts sends one prompt to the backend, the instruction of line 195
    around exactly these two texts.  What the backend answers is returned
    as it is with 200; when the backend raises, the answer is 500 with a
    detail. *)
Theorem translate_sends_the_prompt (model : GenerativeModel) (w : world)
    (m : gmap string json) (text target_language : string) :
  m !! "text" = Some (JStr text) →
  m !! "target_language" = Some (JStr target_language) →
  translate_text_flask (Some model) w (JObj m) =
  match generate_content w model
          ("Translate the following text into " +:+ target_language +:+
           ": " +:+ text) with
  | Ok translated_content =>
      (mkResponse (Translation (TranslationResponse.mk translated_content)) 200,
       [prompt_for target_language text])
  | Raise e =>
      (mkResponse (Detail (Failed "Failed to translate text: " e)) 500,
       [prompt_for target_language text])
  end.
Proof.
  intros Htext Hlang. unfold translate_text_flask, TranslationRequest_init.
  cbn [Pydantic.kwargs mbind result_bind]. rewrite Htext, Hlang. cbn.
  by destruct (generate_content w model _).
Qed.


(** ** Deleting, then listing *)

(** X17: after a delete answered 204, the list holds the items it held
    before but the one of the deleted id, and one item less. *)
Theorem delete_then_list (fl : faults) (st : store) (todo_id : Z)
    (todos : list TodoItem.t) :
  let '(resp, st') := view (delete_todo_flask fl todo_id) st in
  resp = mkResponse Empty 204 →
  view (get_all_todos_flask no_faults) st = (mkResponse (Todos todos) 200, st) →
  ∃ todos',
    view (get_all_todos_flask no_faults) st' =
      (mkResponse (Todos todos') 200, st')
    ∧ (∀ t, t ∈ todos' ↔ t ∈ todos ∧ TodoItem.id t ≠ Some todo_id)
    ∧ length todos = S (length todos').
Proof.
  rewrite view_delete. cbn zeta.
  destruct (fl Get); [done|].
  destruct (rows st !! todo_id) as [r|] eqn:Hr; [|done].
  destruct (fl Commit); [done|]. intros _.
  rewrite !view_get_all. cbn [no_faults]. intros [= <-].
  eexists. split; [done|]. cbn [rows]. split.
  - intros t. split.
    + intros Hin. apply elem_of_loaded_inv in Hin as (k & r' & -> & Hin).
      apply lookup_delete_Some in Hin as [Hk Hin].
      split; [by apply elem_of_loaded|]. cbn. congruence.
    + intros [Hin Hid]. apply elem_of_loaded_inv in Hin as (k & r' & -> & Hin).
      apply elem_of_loaded, lookup_delete_Some. split; [|done].
      cbn in Hid. congruence.
  - rewrite !length_fmap, !length_map_to_list.
    rewrite <- (insert_delete_id (rows st) todo_id r) at 1 by done.
    by rewrite map_size_insert_None by apply lookup_delete_eq.
Qed.

(** ** The invariants of the store over a run *)

(** X18: a store whose sequence is ahead of its keys and whose priorities
    fit their column is still such a store after any requests, whatever
    their bodies and whichever statements fail; and the sequence never
    goes back. *)
Theorem store_invariants_are_kept (a : app) (rqs : list (world * request)) :
  sequence_ahead (database a) →
  priorities_capped (database a) →
  sequence_ahead (database (serve_all a rqs).1.2)
  ∧ priorities_capped (database (serve_all a rqs).1.2)
  ∧ next_id (database a) ≤ next_id (database (serve_all a rqs).1.2).
Proof.
  intros Hseq Hcap. repeat split.
  - apply serve_all_invariant; [apply writes_sequence_ahead|done].
  - apply serve_all_invariant; [apply writes_priorities_capped|done].
  - apply (serve_all_invariant (λ s, next_id (database a) ≤ next_id s)).
    + intros s s' Hw%writes_next_id. lia.
    + done.
Qed.

End Endpoints.

(** * The further properties on examples *)

(** The list of the table with one row. *)
Lemma list_is_the_table_example :
  no_faults Select = false ∧
  ∃ todos,
    view (get_all_todos_flask no_faults) one_todo =
      (mkResponse (Todos todos) 200, one_todo)
    ∧ load 1 milk ∈ todos
    ∧ length todos = 1%nat.
Proof.
  split; [reflexivity|].
  pose proof (list_is_the_table no_faults one_todo) as Hl.
  destruct (view _ _) as [resp st'].
  destruct Hl as (-> & _ & Hl).
  destruct (Hl eq_refl) as (todos & -> & Hin & _ & Hlen & _).
  exists todos. split; [reflexivity|]. split; [|exact Hlen].
  apply Hin. reflexivity.
Defined.

(** A second item is created from a title. *)
Lemma create_accepted_example :
  status (view (create_todo_flask no_faults (JObj walk)) one_todo).1 = 201 ∧
  ∃ c, TodoItemCreate_init (JObj walk) = Ok c ∧
       (view (create_todo_flask no_faults (JObj walk)) one_todo).2 =
       mkStore (<[2 := mkRow (TodoItemCreate.title c)
                         (TodoItemCreate.description c) false
                         (TodoItemCreate.priority c)
                         (TodoItemCreate.due_date c)]> (rows one_todo)) 3.
Proof.
  split; [reflexivity|].
  pose proof (create_accepted no_faults one_todo (JObj walk)) as Hc.
  destruct (view _ _) as [resp st'] eqn:Hview.
  assert (status resp = 201) as Hs.
  { change resp with (resp, st').1. rewrite <- Hview. reflexivity. }
  destruct (Hc Hs) as (c & Hinit & _ & _ & _ & ->).
  exists c. split; [exact Hinit|reflexivity].
Defined.

(** The item returned for the second item is the row stored under 2. *)
Lemma returned_item_is_stored_example :
  content (view (create_todo_flask no_faults (JObj walk)) one_todo).1 =
    Todo (load 2 walk_row) ∧
  ∃ k r,
    TodoItem.id (load 2 walk_row) = Some k ∧
    rows (view (create_todo_flask no_faults (JObj walk)) one_todo).2 !! k =
      Some r ∧
    load 2 walk_row = load k r.
Proof.
  split; [reflexivity|].
  destruct (returned_item_is_stored no_faults one_todo 1 (JObj walk))
    as [Hc _].
  destruct (view _ _) as [resp st'] eqn:Hview.
  apply Hc. change resp with (resp, st').1. rewrite <- Hview. reflexivity.
Defined.

(** Marking the item as completed keeps its title. *)
Lemma update_is_partial_example :
  rows one_todo !! 1 = Some milk ∧
  ∃ r',
    rows (view (update_todo_flask no_faults 1
                  (JObj {[ "completed" := JBool true ]})) one_todo).2 !! 1 =
      Some r' ∧
    row_title r' = "Buy milk".
Proof.
  split; [reflexivity|].
  pose proof (update_is_partial no_faults one_todo 1 milk
                {[ "completed" := JBool true ]} eq_refl) as Hu.
  destruct (view _ _) as [resp st'].
  destruct Hu as (r' & Hr' & Ht & _).
  exists r'. split; [exact Hr'|exact (Ht eq_refl)].
Defined.

Lemma agree_on_walk_with_id :
  agree_on create_keys walk (<["id" := JInt 9]> walk).
Proof. repeat (constructor; [reflexivity|]). constructor. Defined.

(** An id in the body of a create changes nothing. *)
Lemma unread_keys_are_ignored_example :
  agree_on create_keys walk (<["id" := JInt 9]> walk) ∧
  view (create_todo_flask no_faults (JObj walk)) one_todo =
  view (create_todo_flask no_faults (JObj (<["id" := JInt 9]> walk))) one_todo.
Proof.
  split; [exact agree_on_walk_with_id|].
  destruct (unread_keys_are_ignored no_faults one_todo 1 None echo walk
              (<["id" := JInt 9]> walk)) as (Hc & _ & _).
  exact (Hc agree_on_walk_with_id).
Defined.

(** Marking the item as completed a second time. *)
Lemma update_is_idempotent_example :
  view (update_todo_flask no_faults 1 (JObj {[ "completed" := JBool true ]}))
    one_todo =
    (mkResponse (Todo (load 1 (with_completed true milk))) 200,
     mkStore {[ 1 := with_completed true milk ]} 2) ∧
  view (update_todo_flask no_faults 1 (JObj {[ "completed" := JBool true ]}))
    (mkStore {[ 1 := with_completed true milk ]} 2) =
    (mkResponse (Todo (load 1 (with_completed true milk))) 200,
     mkStore {[ 1 := with_completed true milk ]} 2).
Proof.
  assert (view (update_todo_flask no_faults 1
                  (JObj {[ "completed" := JBool true ]})) one_todo =
          (mkResponse (Todo (load 1 (with_completed true milk))) 200,
           mkStore {[ 1 := with_completed true milk ]} 2)) as Hview
    by reflexivity.
  split; [exact Hview|].
  pose proof (update_is_idempotent no_faults no_faults one_todo 1
                (JObj {[ "completed" := JBool true ]})) as Hu.
  rewrite Hview in Hu. exact (proj1 (Hu eq_refl)).
Defined.

(** A null for the title of the item. *)
Lemma update_null_is_refused_example :
  rows one_todo !! 1 = Some milk ∧
  no_faults Get = false ∧
  ({[ "title" := JNull ]} : gmap string json) !! "title" = Some JNull ∧
  status (view (update_todo_flask no_faults 1 (JObj {[ "title" := JNull ]}))
            one_todo).1 = 500 ∧
  (view (update_todo_flask no_faults 1 (JObj {[ "title" := JNull ]}))
     one_todo).2 = one_todo.
Proof.
  do 3 (split; [reflexivity|]).
  pose proof (update_null_is_refused_by_the_store no_faults one_todo 1 milk
                {[ "title" := JNull ]} eq_refl eq_refl (or_introl eq_refl))
    as Hu.
  destruct (view _ _) as [resp st'].
  destruct Hu as (Hs & Hst & _). split; [exact Hs|exact Hst].
Defined.

(** The list after the second item is created. *)
Lemma create_then_list_example :
  view (create_todo_flask no_faults (JObj walk)) one_todo =
    (mkResponse (Todo (load 2 walk_row)) 201,
     mkStore (<[2 := walk_row]> {[ 1 := milk ]}) 3) ∧
  view (get_all_todos_flask no_faults) one_todo =
    (mkResponse (Todos [load 1 milk]) 200, one_todo) ∧
  ∃ todos',
    view (get_all_todos_flask no_faults)
      (mkStore (<[2 := walk_row]> {[ 1 := milk ]}) 3) =
      (mkResponse (Todos todos') 200,
       mkStore (<[2 := walk_row]> {[ 1 := milk ]}) 3)
    ∧ length todos' = 2%nat.
Proof.
  assert (view (create_todo_flask no_faults (JObj walk)) one_todo =
          (mkResponse (Todo (load 2 walk_row)) 201,
           mkStore (<[2 := walk_row]> {[ 1 := milk ]}) 3)) as Hview
    by reflexivity.
  split; [exact Hview|]. split; [reflexivity|].
  pose proof (create_then_list no_faults one_todo (JObj walk)
                (load 2 walk_row) [load 1 milk]) as Hc.
  rewrite Hview in Hc.
  destruct (Hc eq_refl eq_refl) as (todos' & Hl & _ & _ & Hlen).
  exists todos'. split; [exact Hl|exact Hlen].
Defined.

(** Deleting the second item right after it is created. *)
Lemma create_then_delete_example :
  view (create_todo_flask no_faults (JObj walk)) one_todo =
    (mkResponse (Todo (load 2 walk_row)) 201,
     mkStore (<[2 := walk_row]> {[ 1 := milk ]}) 3) ∧
  view (delete_todo_flask no_faults 2)
    (mkStore (<[2 := walk_row]> {[ 1 := milk ]}) 3) =
    (mkResponse Empty 204, mkStore {[ 1 := milk ]} 3).
Proof.
  assert (view (create_todo_flask no_faults (JObj walk)) one_todo =
          (mkResponse (Todo (load 2 walk_row)) 201,
           mkStore (<[2 := walk_row]> {[ 1 := milk ]}) 3)) as Hview
    by reflexivity.
  split; [exact Hview|].
  pose proof (create_then_delete no_faults one_todo (JObj walk)
                (load 2 walk_row)) as Hc.
  rewrite Hview in Hc. exact (proj2 (Hc eq_refl)).
Defined.

(** A create, a delete of the item created, and a create again: the
    second create does not give the id of the first. *)
Lemma ids_are_given_once_example :
  database (mkApp None true (mkStore (<[2 := walk_row]> {[ 1 := milk ]}) 3)) =
    (view (create_todo_flask no_faults (JObj walk)) one_todo).2 ∧
  ∃ k k',
    TodoItem.id (load 2 walk_row) = Some k ∧
    TodoItem.id (load 3 walk_row) = Some k' ∧
    k < k'.
Proof.
  split; [reflexivity|].
  pose proof (ids_are_given_once no_faults no_faults one_todo (JObj walk)
                (JObj walk)
                (mkApp None true (mkStore (<[2 := walk_row]> {[ 1 := milk ]}) 3))
                [(echo, DELETE_todos 2)]) as Hids.
  assert (view (create_todo_flask no_faults (JObj walk)) one_todo =
          (mkResponse (Todo (load 2 walk_row)) 201,
           mkStore (<[2 := walk_row]> {[ 1 := milk ]}) 3)) as Hview
    by reflexivity.
  rewrite Hview in Hids.
  exact (Hids eq_refl (load 2 walk_row) (load 3 walk_row) eq_refl eq_refl).
Defined.

Lemma setup_fails_twice :
  Forall (λ wrq : world * request, db_faults wrq.1 CreateAll = true)
    [(setup_fails, GET_index);
     (setup_fails, POST_translate (JObj hello_in_french))].
Proof. repeat (constructor; [reflexivity|]). constructor. Defined.

(** The index page and a translation, while the tables cannot be
    created. *)
Lemma setup_failure_serves_nothing_example :
  db_initialized (mkApp (Some gemini) false no_todo) = false ∧
  serve_all (mkApp (Some gemini) false no_todo)
    [(setup_fails, GET_index);
     (setup_fails, POST_translate (JObj hello_in_french))] =
  ([internal_server_error; internal_server_error],
   mkApp (Some gemini) false no_todo, []).
Proof.
  split; [reflexivity|].
  exact (setup_failure_serves_nothing (mkApp (Some gemini) false no_todo) _
           eq_refl setup_fails_twice).
Defined.

(** A first request sets the tables up; a later failure of the setup is
    not met. *)
Lemma tables_are_set_up_once_example :
  db_faults echo CreateAll = false ∧
  db_initialized
    (serve_all (serve echo (mkApp None false no_todo) GET_todos).1.2
       [(setup_fails, GET_todos)]).1.2 = true.
Proof.
  split; [reflexivity|].
  exact (proj1 (tables_are_set_up_once echo (mkApp None false no_todo)
                  GET_todos [(setup_fails, GET_todos)])
           (or_intror eq_refl)).
Defined.

(** A translation of hello into French, by a backend that echoes. *)
Lemma translate_sends_the_prompt_example :
  hello_in_french !! "text" = Some (JStr "hello") ∧
  hello_in_french !! "target_language" = Some (JStr "French") ∧
  translate_text_flask (Some gemini) echo (JObj hello_in_french) =
  (mkResponse
     (Translation
        (TranslationResponse.mk
           "Translate the following text into French: hello")) 200,
   ["Translate the following text into French: hello"]).
Proof.
  do 2 (split; [reflexivity|]).
  exact (translate_sends_the_prompt gemini echo hello_in_french "hello"
           "French" eq_refl eq_refl).
Defined.


(** The list after the only item is deleted. *)
Lemma delete_then_list_example :
  view (delete_todo_flask no_faults 1) one_todo =
    (mkResponse Empty 204, mkStore ∅ 2) ∧
  view (get_all_todos_flask no_faults) one_todo =
    (mkResponse (Todos [load 1 milk]) 200, one_todo) ∧
  ∃ todos',
    view (get_all_todos_flask no_faults) (mkStore ∅ 2) =
      (mkResponse (Todos todos') 200, mkStore ∅ 2)
    ∧ 1%nat = S (length todos').
Proof.
  assert (view (delete_todo_flask no_faults 1) one_todo =
          (mkResponse Empty 204, mkStore ∅ 2)) as Hview by reflexivity.
  split; [exact Hview|]. split; [reflexivity|].
  pose proof (delete_then_list no_faults one_todo 1 [load 1 milk]) as Hd.
  rewrite Hview in Hd.
  destruct (Hd eq_refl eq_refl) as (todos' & Hl & _ & Hlen).
  exists todos'. split; [exact Hl|exact Hlen].
Defined.

(** The invariants after a create and a delete on the table with one
    row. *)
Lemma store_invariants_are_kept_example :
  sequence_ahead one_todo ∧ priorities_capped one_todo ∧
  sequence_ahead
    (database
       (serve_all (mkApp None true one_todo)
          [(echo, POST_todos (JObj walk)); (echo, DELETE_todos 1)]).1.2).
Proof.
  split; [exact sequence_ahead_one_todo|].
  split; [exact priorities_capped_one_todo|].
  exact (proj1 (store_invariants_are_kept (mkApp None true one_todo)
                  [(echo, POST_todos (JObj walk)); (echo, DELETE_todos 1)]
                  sequence_ahead_one_todo priorities_capped_one_todo)).
Defined.
